(** * Smart Lost and Found: the matcher and the claim-verification flow

    A shallow embedding of the Cloud Functions of the portal
    ([sendClaimOTP], [verifyClaimOTP], [findMatches],
    [sendMatchNotification]) and of the client-side claim page
    ([sendOtp], [verifyOtp] of [ClaimPage]).

    Modelling conventions.
    - A JavaScript string is a [string]; [toLowerCase] maps the letters
      [A]..[Z] to [a]..[z] and leaves every other character alone.
    - A JavaScript number is an exact rational extended with the special
      values of IEEE 754 ([Infinity], [-Infinity], [NaN]); the sign of
      zero is not modelled. The one-time code is computed twice: over the
      rationals ([Otp]), which is what the models of the functions carry
      around, and in binary64 with its two roundings ([Binary64],
      [Otp64]), which is what the statements about the values of the
      code are about.
    - Firestore collections are finite maps from document ids to
      documents; a write that has been awaited stays written when a later
      statement throws. *)

From Stdlib Require Import QArith Qround Lqa.
From Stdlib Require Import Floats Uint63.
From Stdlib Require Import Strings.Ascii Strings.String.
From stdpp Require Import gmap strings list fin_maps.
From Stdlib Require Import Sorting.Sorted Sorting.Permutation.

Local Open Scope Z_scope.

(* ===================================================================== *)
(** * Strings *)
(* ===================================================================== *)

Module Str.

(** [c.toLowerCase()] on one character. *)
Definition lower_char (c : ascii) : ascii :=
  let n := nat_of_ascii c in
  if (65 <=? n)%nat && (n <=? 90)%nat then ascii_of_nat (n + 32) else c.

(** [s.toLowerCase()], for the letters [A] to [Z]; every other
    character, and so every cased letter outside ASCII, is left as it
    is. *)
Fixpoint toLowerCase (s : string) : string :=
  match s with
  | EmptyString => EmptyString
  | String c s' => String (lower_char c) (toLowerCase s')
  end.

(** [s.startsWith(t)] *)
Fixpoint startsWith (s t : string) {struct t} : bool :=
  match t, s with
  | EmptyString, _ => true
  | String _ _, EmptyString => false
  | String b t', String a s' => if Ascii.eqb a b then startsWith s' t' else false
  end.

(** [s.includes(t)]: [t] occurs in [s] at some position. *)
Fixpoint includes (s t : string) : bool :=
  startsWith s t ||
  match s with
  | EmptyString => false
  | String _ s' => includes s' t
  end.

(** [t] is a substring of [s]. *)
Definition substring_of (t s : string) : Prop :=
  exists pre post : string, s = (pre ++ t ++ post)%string.

End Str.

(* ===================================================================== *)
(** * Numbers *)
(* ===================================================================== *)

Module Num.

Inductive number : Type :=
  | Finite (q : Q)
  | PosInfinity
  | NegInfinity
  | NaN.

Definition of_nat (n : nat) : number := Finite (inject_Z (Z.of_nat n)).
Definition of_Z (z : Z) : number := Finite (inject_Z z).

(** The value of [xs?.length] when [xs] may be [undefined]: the optional
    chain yields [undefined], which arithmetic turns into [NaN]. *)
Definition of_length {A} (xs : option (list A)) : number :=
  match xs with
  | Some l => of_nat (length l)
  | None => NaN
  end.

(** An infinity of the sign of [q] times the sign of [pos]; [NaN] when
    [q] is zero. *)
Definition signed_infinity (q : Q) (pos : bool) : number :=
  match (q ?= 0)%Q with
  | Eq => NaN
  | Gt => if pos then PosInfinity else NegInfinity
  | Lt => if pos then NegInfinity else PosInfinity
  end.

(** [a / b] *)
Definition div (a b : number) : number :=
  match a, b with
  | NaN, _ | _, NaN => NaN
  | Finite p, Finite q =>
      if Qeq_bool q 0 then signed_infinity p true else Finite (p / q)
  | Finite _, (PosInfinity | NegInfinity) => Finite 0
  | PosInfinity, Finite q => if Qle_bool 0 q then PosInfinity else NegInfinity
  | NegInfinity, Finite q => if Qle_bool 0 q then NegInfinity else PosInfinity
  | (PosInfinity | NegInfinity), (PosInfinity | NegInfinity) => NaN
  end.

(** [a * b] *)
Definition mul (a b : number) : number :=
  match a, b with
  | NaN, _ | _, NaN => NaN
  | Finite p, Finite q => Finite (p * q)
  | Finite p, PosInfinity | PosInfinity, Finite p => signed_infinity p true
  | Finite p, NegInfinity | NegInfinity, Finite p => signed_infinity p false
  | PosInfinity, PosInfinity | NegInfinity, NegInfinity => PosInfinity
  | PosInfinity, NegInfinity | NegInfinity, PosInfinity => NegInfinity
  end.

(** [a - b] *)
Definition sub (a b : number) : number :=
  match a, b with
  | NaN, _ | _, NaN => NaN
  | Finite p, Finite q => Finite (p - q)
  | Finite _, PosInfinity => NegInfinity
  | Finite _, NegInfinity => PosInfinity
  | PosInfinity, (Finite _ | NegInfinity) => PosInfinity
  | NegInfinity, (Finite _ | PosInfinity) => NegInfinity
  | PosInfinity, PosInfinity | NegInfinity, NegInfinity => NaN
  end.

(** [a > b] *)
Definition gt (a b : number) : bool :=
  match a, b with
  | NaN, _ | _, NaN => false
  | Finite p, Finite q => negb (Qle_bool p q)
  | PosInfinity, (Finite _ | NegInfinity) => true
  | Finite _, NegInfinity => true
  | _, _ => false
  end.

(** [a == b] on numbers ([NaN] equals nothing). *)
Definition eqb (a b : number) : bool :=
  match a, b with
  | Finite p, Finite q => Qeq_bool p q
  | PosInfinity, PosInfinity | NegInfinity, NegInfinity => true
  | _, _ => false
  end.



End Num.

(* ===================================================================== *)
(** * Data model *)
(* ===================================================================== *)

Inductive ItemType : Type := found | lost.
Inductive ItemStatus : Type := unclaimed | claimed | pending.

Global Instance ItemType_eq_dec : EqDecision ItemType.
Proof. solve_decision. Defined.
Global Instance ItemStatus_eq_dec : EqDecision ItemStatus.
Proof. solve_decision. Defined.

(** The [Item] document of the [items] collection. [imageLabels] is read
    through an optional chain by the functions, so it may be absent. *)
Record Item : Type := {
  userId : string;
  userEmail : string;
  type : ItemType;
  title : string;
  imageLabels : option (list string);
  status : ItemStatus;
  claimantId : option string;
  claimantEmail : option string;
  claimedAt : option Z;
}.

(** The item with another status. *)
Definition withStatus (s : ItemStatus) (it : Item) : Item :=
  {| userId := userId it; userEmail := userEmail it; type := type it;
     title := title it; imageLabels := imageLabels it;
     status := s;
     claimantId := claimantId it; claimantEmail := claimantEmail it;
     claimedAt := claimedAt it |}.

(** A document of a query snapshot: [doc.id] and [doc.data()]. *)
Record Doc : Type := { doc_id : string; doc_data : Item }.

(* ===================================================================== *)
(** * The matcher *)
(* ===================================================================== *)

Module Matcher.

Import Str.

(** [itemLabels.some(l => l.toLowerCase().includes(label.toLowerCase()))] *)
Definition someIncludes (itemLabels : list string) (label : string) : bool :=
  existsb (fun l => includes (toLowerCase l) (toLowerCase label)) itemLabels.

(** [item.imageLabels?.filter(label => itemLabels.some(...)) || []] *)
Definition commonLabels (itemLabels : list string) (item : Item) : list string :=
  match imageLabels item with
  | Some labels => List.filter (someIncludes itemLabels) labels
  | None => []
  end.

(** [(commonLabels.length / itemLabels.length) * 100] *)
Definition similarity (itemLabels : list string) (item : Item) : Num.number :=
  Num.mul (Num.div (Num.of_nat (length (commonLabels itemLabels item)))
                   (Num.of_nat (length itemLabels)))
          (Num.of_Z 100).

(** An element of [matches]: [{ id: doc.id, ...item, similarity }]. *)
Record Match : Type := {
  match_id : string;
  match_item : Item;
  match_similarity : Num.number;
}.

(** One iteration of the loop of [findMatches] over the snapshot. *)
Definition findMatches_step (itemLabels : list string)
    (matches : list Match) (doc : Doc) : list Match :=
  let item := doc_data doc in
  let common := commonLabels itemLabels item in
  if (0 <? length common)%nat then
    let sim := similarity itemLabels item in
    if Num.gt sim (Num.of_Z 60) then
      matches ++ [ {| match_id := doc_id doc; match_item := item;
                      match_similarity := sim |} ]
    else matches
  else matches.

(** The comparison function [(a, b) => b.similarity - a.similarity]. *)
Definition compareFn (a b : Match) : Num.number :=
  Num.sub (match_similarity b) (match_similarity a).

(** [Array.prototype.sort] with a comparison function: a stable sort
    (ECMAScript 2019); [x] goes after [y] exactly when
    [compareFn x y > 0]. *)
Fixpoint sort_insert (cmp : Match -> Match -> Num.number)
    (x : Match) (l : list Match) : list Match :=
  match l with
  | [] => [x]
  | y :: l' =>
      if Num.gt (cmp x y) (Num.of_Z 0) then y :: sort_insert cmp x l'
      else x :: y :: l'
  end.

Fixpoint sort (cmp : Match -> Match -> Num.number) (l : list Match) : list Match :=
  match l with
  | [] => []
  | x :: l' => sort_insert cmp x (sort cmp l')
  end.

(** The matches pushed by the loop, in snapshot order. *)
Definition findMatches_collect (itemLabels : list string) (docs : list Doc) : list Match :=
  fold_left (findMatches_step itemLabels) docs [].

(** The body of [findMatches] after the query: the loop, then the sort. *)
Definition findMatches_run (itemLabels : list string) (docs : list Doc) : list Match :=
  sort compareFn (findMatches_collect itemLabels docs).

(** The document added to the [notifications] collection. *)
Record Notification : Type := {
  notif_userId : string;
  notif_title : string;
  notif_message : string;
  notif_type : string;
  notif_itemId : string;
  notif_matchedItemId : string;
  notif_read : bool;
  notif_createdAt : Z;
}.

(** [item.imageLabels?.some(...)] where [item] is the new posting:
    [undefined] (falsy) when the labels are absent. *)
Definition someIncludes_opt (labels : option (list string)) (label : string) : bool :=
  match labels with
  | Some ls => someIncludes ls label
  | None => false
  end.

Definition commonLabels_opt (labels : option (list string)) (foundItem : Item) : list string :=
  match imageLabels foundItem with
  | Some ls => List.filter (someIncludes_opt labels) ls
  | None => []
  end.

(** [(commonLabels.length / item.imageLabels?.length) * 100] *)
Definition similarity_opt (labels : option (list string)) (foundItem : Item) : Num.number :=
  Num.mul (Num.div (Num.of_nat (length (commonLabels_opt labels foundItem)))
                   (Num.of_length labels))
          (Num.of_Z 100).

(** The double-quote character of the message template. *)
Definition dquote : string := String (ascii_of_nat 34) EmptyString.

Definition matchNotification (now : Z) (itemId : string) (foundDoc : Doc) : Notification :=
  {| notif_userId := userId (doc_data foundDoc);
     notif_title := "Potential Match Found!";
     notif_message := "Your found item " +:+ dquote +:+ title (doc_data foundDoc)
                        +:+ dquote +:+ " might match someone's lost item.";
     notif_type := "match";
     notif_itemId := doc_id foundDoc;
     notif_matchedItemId := itemId;
     notif_read := false;
     notif_createdAt := now |}.

(** One iteration of the loop of [sendMatchNotification]. *)
Definition notify_step (now : Z) (itemId : string) (item : Item)
    (added : list Notification) (foundDoc : Doc) : list Notification :=
  let foundItem := doc_data foundDoc in
  let common := commonLabels_opt (imageLabels item) foundItem in
  if (0 <? length common)%nat then
    let sim := similarity_opt (imageLabels item) foundItem in
    if Num.gt sim (Num.of_Z 80) then added ++ [matchNotification now itemId foundDoc]
    else added
  else added.

(** The notifications added by the loop over the found items. *)
Definition notify_run (now : Z) (itemId : string) (item : Item)
    (docs : list Doc) : list Notification :=
  fold_left (notify_step now itemId item) docs [].

(** ** Vocabulary of the statements about the matcher *)

(** The element pushed for a candidate. *)
Definition mkMatch (q : list string) (d : Doc) : Match :=
  {| match_id := doc_id d; match_item := doc_data d;
     match_similarity := similarity q (doc_data d) |}.

(** [similarity > 60], the test of [findMatches]. *)
Definition over60 (q : list string) (d : Doc) : bool :=
  Num.gt (similarity q (doc_data d)) (Num.of_Z 60).

(** [similarity > 80], the test of [sendMatchNotification]. *)
Definition over80 (labels : option (list string)) (d : Doc) : bool :=
  Num.gt (similarity_opt labels (doc_data d)) (Num.of_Z 80).





End Matcher.

(* ===================================================================== *)
(** * The store, and functions that read, write and throw *)
(* ===================================================================== *)

(** A document of the [otps] collection. *)
Record OtpDoc : Type := {
  otp_code : string;
  otp_itemId : string;
  otp_userId : string;
  otp_createdAt : Z;
  otp_expiresAt : Z;
}.

(** A message handed to the mail transporter; the HTML body embeds
    [mail_code] as the verification code. *)
Record Mail : Type := {
  mail_to : string;
  mail_subject : string;
  mail_code : string;
}.

Record Store : Type := {
  items : gmap string Item;
  otps : gmap string OtpDoc;
  notifications : list Matcher.Notification;
  outbox : list Mail;
}.

Definition set_items (f : gmap string Item -> gmap string Item) (s : Store) : Store :=
  {| items := f (items s); otps := otps s;
     notifications := notifications s; outbox := outbox s |}.
Definition set_otps (f : gmap string OtpDoc -> gmap string OtpDoc) (s : Store) : Store :=
  {| items := items s; otps := f (otps s);
     notifications := notifications s; outbox := outbox s |}.
Definition set_notifications
    (f : list Matcher.Notification -> list Matcher.Notification) (s : Store) : Store :=
  {| items := items s; otps := otps s;
     notifications := f (notifications s); outbox := outbox s |}.
Definition set_outbox (f : list Mail -> list Mail) (s : Store) : Store :=
  {| items := items s; otps := otps s;
     notifications := notifications s; outbox := f (outbox s) |}.

(** What one invocation reads from outside the store: the clock (both
    [Date.now()] and the server timestamp), the value returned by
    [Math.random()], and whether the mail transporter accepts the
    message. *)
Record Env : Type := {
  now : Z;
  random : Q;
  mailDelivered : bool;
}.

(** The codes of [functions.https.HttpsError] used by the functions. *)
Inductive ErrorCode : Type :=
  | unauthenticated
  | internal
  | not_found
  | invalid_argument
  | deadline_exceeded.

(** A thrown value: an [HttpsError], or an [Error] of a collaborator
    (Firestore, the mail transporter). *)
Inductive exn : Type :=
  | HttpsError (code : ErrorCode) (message : string)
  | Error (message : string).

Inductive outcome (A : Type) : Type :=
  | Return (a : A)
  | Throw (e : exn).
Arguments Return {A} a.
Arguments Throw {A} e.

(** A computation over the store that returns or throws; the store it
    leaves behind keeps every write made before the throw. *)
Definition M (A : Type) : Type := Store -> outcome A * Store.

Definition ret {A} (a : A) : M A := fun s => (Return a, s).
Definition throw {A} (e : exn) : M A := fun s => (Throw e, s).
Definition bind {A B} (m : M A) (k : A -> M B) : M B :=
  fun s =>
    match m s with
    | (Return a, s') => k a s'
    | (Throw e, s') => (Throw e, s')
    end.
Definition try_catch {A} (body : M A) (handler : exn -> M A) : M A :=
  fun s =>
    match body s with
    | (Return a, s') => (Return a, s')
    | (Throw e, s') => handler e s'
    end.

Notation "'let*' x ':=' m 'in' k" := (bind m (fun x => k))
  (at level 10, x name, m at level 100, k at level 200, only parsing).
Notation "'do*' m 'in' k" := (bind m (fun _ => k))
  (at level 10, m at level 100, k at level 200, only parsing).

Module Firestore.

(** [db.collection('otps').doc(id).set(doc)] *)
Definition otps_set (id : string) (d : OtpDoc) : M unit :=
  fun s => (Return tt, set_otps (fun m => <[id := d]> m) s).

(** [db.collection('otps').doc(id).get()]: [None] when [!exists]. *)
Definition otps_get (id : string) : M (option OtpDoc) :=
  fun s => (Return (otps s !! id), s).

(** [db.collection('otps').doc(id).delete()] *)
Definition otps_delete (id : string) : M unit :=
  fun s => (Return tt, set_otps (fun m => delete id m) s).

(** [db.collection('items').doc(id).update(patch)]: fails when the
    document does not exist. *)
Definition items_update (id : string) (patch : Item -> Item) : M unit :=
  fun s =>
    match items s !! id with
    | Some it => (Return tt, set_items (fun m => <[id := patch it]> m) s)
    | None => (Throw (Error "NOT_FOUND: no document to update"), s)
    end.

(** [db.collection('items').where('type','==',ty).where('status','==','unclaimed').get()];
    the documents come in the order in which the map enumerates them,
    which stands for the order of the snapshot. *)
Definition items_query (ty : ItemType) : M (list Doc) :=
  fun s =>
    (Return (List.map (fun kv => {| doc_id := fst kv; doc_data := snd kv |})
               (List.filter
                  (fun kv => bool_decide (type (snd kv) = ty)
                             && bool_decide (status (snd kv) = unclaimed))
                  (map_to_list (items s)))), s).

(** [db.collection('notifications').add(doc)] *)
Definition notifications_add (n : Matcher.Notification) : M unit :=
  fun s => (Return tt, set_notifications (fun l => l ++ [n]) s).

End Firestore.

(** [transporter.sendMail(...)] *)
Definition sendMail (env : Env) (m : Mail) : M unit :=
  fun s =>
    if mailDelivered env then (Return tt, set_outbox (fun l => l ++ [m]) s)
    else (Throw (Error "mail transport failed"), s).

(* ===================================================================== *)
(** * The one-time code *)
(* ===================================================================== *)

Module Otp.

(** The character of a decimal digit [0 <= d <= 9]. *)
Definition digit_char (d : Z) : ascii := ascii_of_nat (48 + Z.to_nat d).

Fixpoint digits_fuel (fuel : nat) (n : Z) (acc : string) : string :=
  match fuel with
  | O => acc
  | S fuel' =>
      let acc' := String (digit_char (n mod 10)) acc in
      if n / 10 =? 0 then acc' else digits_fuel fuel' (n / 10) acc'
  end.

(** The decimal digits of [n >= 0], most significant first. *)
Definition digits (n : Z) : string :=
  digits_fuel (S (Z.to_nat (Z.log2 n))) n EmptyString.

(** [n.toString()] for an integer [n]. *)
Definition toString (n : Z) : string :=
  if n <? 0 then String "-" (digits (- n)) else digits n.

(** [Math.floor(x)] for a finite [x]. *)
Definition Math_floor (x : Q) : Z := Qfloor x.

(** [Math.floor(100000 + Math.random() * 900000).toString()], with [r]
    the value of [Math.random()] and the sum and the product taken over
    the rationals, without rounding; [Otp64.generateOtp] rounds as the
    engine does. *)
Definition generateOtp (r : Q) : string :=
  toString (Math_floor (100000 + r * 900000)%Q).

(** The value of a decimal digit character. *)
Definition digit_value (c : ascii) : option Z :=
  let n := nat_of_ascii c in
  if (48 <=? n)%nat && (n <=? 57)%nat then Some (Z.of_nat n - 48) else None.

(** The integer a string of decimal digits denotes; [None] when some
    character is not a digit or the string is empty. *)
Fixpoint decimal_value_acc (s : string) (acc : Z) : option Z :=
  match s with
  | EmptyString => Some acc
  | String c s' =>
      match digit_value c with
      | Some d => decimal_value_acc s' (10 * acc + d)
      | None => None
      end
  end.

Definition decimal_value (s : string) : option Z :=
  match s with
  | EmptyString => None
  | _ => decimal_value_acc s 0
  end.

End Otp.

(* ===================================================================== *)
(** * Binary64 arithmetic, and the one-time code computed in it *)
(* ===================================================================== *)

(** A finite binary64 number is a whole multiple of [2^-1074] with at
    most 53 significant binary digits. A nonnegative one is held here as
    that multiple: [n : Z] stands for [n * 2^-1074]. The numbers of this
    development stay far below the overflow threshold. *)
Module Binary64.

Definition scale : Z := 2 ^ 1074.

(** The integer [n]. *)
Definition of_Z (n : Z) : Z := n * scale.

(** The number of low binary digits of [n >= 0] beyond the 53 a
    binary64 number keeps. *)
Definition excess (n : Z) : Z := Z.max 0 (Z.log2 n + 1 - 53).

(** [n / 2^s] rounded to the nearest integer, a tie going to the even
    one. *)
Definition nearest_even (n s : Z) : Z :=
  let q := n / 2 ^ s in
  let r := n mod 2 ^ s in
  let half := 2 ^ (s - 1) in
  if r <? half then q
  else if half <? r then q + 1
  else if Z.even q then q else q + 1.

(** The binary64 number nearest to [n >= 0] (round to nearest, ties to
    even). *)
Definition round (n : Z) : Z :=
  let s := excess n in
  if s =? 0 then n else nearest_even n s * 2 ^ s.

(** [n] is a binary64 number. *)
Definition representable (n : Z) : Prop := round n = n.

(** [x * k] for an integer [k]: the exact product, rounded. *)
Definition mul_Z (x k : Z) : Z := round (x * k).

(** [x + y]: the exact sum, rounded. *)
Definition add (x y : Z) : Z := round (x + y).

(** [Math.floor(x)] *)
Definition floor (x : Z) : Z := x / scale.

(** The rational the number is. *)
Definition to_Q (x : Z) : Q := Qmake x (Z.to_pos scale).

(** The distance [2^-53] between the binary64 numbers from 1/2 to 1. *)
Definition ulp : Z := 2 ^ 1021.

End Binary64.

Module Otp64.

Import Binary64.

(** What [Math.random()] can return: a binary64 number that is at least
    0 and less than 1. *)
Definition random_value (r : Z) : Prop := 0 <= r < scale /\ representable r.

(** [Math.floor(100000 + Math.random() * 900000)], with [r] the value of
    [Math.random()]: the product is rounded, then the sum. *)
Definition code (r : Z) : Z := floor (add (of_Z 100000) (mul_Z r 900000)).

(** [Math.floor(100000 + Math.random() * 900000).toString()] *)
Definition generateOtp (r : Z) : string := Otp.toString (code r).




End Otp64.

(* ===================================================================== *)
(** * The Cloud Functions *)
(* ===================================================================== *)

(** [context.auth]: the caller's [uid] and [token.email]. The token of
    a caller who signed in with a phone number carries no email:
    [token.email] is then [undefined], here [None]. *)
Record Auth : Type := { uid : string; token_email : option string }.
Record CallableContext : Type := { auth : option Auth }.

Inductive Success : Type := success_true.

Module Functions.

Import Firestore.

Definition unauthenticated_error : exn :=
  HttpsError unauthenticated "User must be authenticated".

(** The id [`${itemId}_${uid}`] of the challenge document. *)
Definition otpId (itemId uid : string) : string := itemId +:+ "_" +:+ uid.

(** ** sendClaimOTP *)

Record SendClaimData : Type := { send_itemId : string; send_userEmail : string }.

Definition newOtpDoc (env : Env) (code itemId uid : string) : OtpDoc :=
  {| otp_code := code; otp_itemId := itemId; otp_userId := uid;
     otp_createdAt := now env;
     otp_expiresAt := now env + 10 * 60 * 1000 |}.

Definition otpMail (userEmail code : string) : Mail :=
  {| mail_to := userEmail;
     mail_subject := "Lost & Found - Item Claim Verification";
     mail_code := code |}.

(** The [try] block of [sendClaimOTP]. *)
Definition sendClaimOTP_try (env : Env) (data : SendClaimData) (a : Auth)
    (code : string) : M Success :=
  do* otps_set (otpId (send_itemId data) (uid a))
               (newOtpDoc env code (send_itemId data) (uid a)) in
  do* sendMail env (otpMail (send_userEmail data) code) in
  ret success_true.

Definition sendClaimOTP (env : Env) (data : SendClaimData)
    (context : CallableContext) : M Success :=
  match auth context with
  | None => throw unauthenticated_error
  | Some a =>
      let code := Otp.generateOtp (random env) in
      try_catch (sendClaimOTP_try env data a code)
        (fun _ => throw (HttpsError internal "Failed to send OTP"))
  end.

(** ** verifyClaimOTP *)

Record VerifyClaimData : Type := { verify_itemId : string; verify_otp : string }.

(** The patch of the [update] on the item. *)
Definition claimPatch (claimant : string) (email : option string) (at_ : Z)
    (it : Item) : Item :=
  {| userId := userId it; userEmail := userEmail it; type := type it;
     title := title it; imageLabels := imageLabels it;
     status := claimed;
     claimantId := Some claimant;
     claimantEmail := email;
     claimedAt := Some at_ |}.

(** [db.collection('items').doc(itemId).update({status: 'claimed',
    claimantId, claimantEmail, claimedAt})]: [update] refuses a field
    whose value is [undefined] before anything is sent to the store, and
    otherwise patches the stored document. *)
Definition undefined_field_error : exn :=
  Error "Cannot use undefined as a Firestore value (found in field claimantEmail)".

Definition claimUpdate (itemId claimant : string) (email : option string)
    (at_ : Z) : M unit :=
  match email with
  | None => throw undefined_field_error
  | Some e => items_update itemId (claimPatch claimant (Some e) at_)
  end.

(** The [try] block of [verifyClaimOTP]. *)
Definition verifyClaimOTP_try (env : Env) (data : VerifyClaimData) (a : Auth) : M Success :=
  let id := otpId (verify_itemId data) (uid a) in
  let* otpDoc := otps_get id in
  match otpDoc with
  | None => throw (HttpsError not_found "OTP not found")
  | Some otpData =>
      if negb (String.eqb (otp_code otpData) (verify_otp data)) then
        throw (HttpsError invalid_argument "Invalid OTP")
      else if otp_expiresAt otpData <? now env then
        throw (HttpsError deadline_exceeded "OTP expired")
      else
        do* claimUpdate (verify_itemId data) (uid a) (token_email a) (now env) in
        do* otps_delete id in
        ret success_true
  end.

Definition verifyClaimOTP (env : Env) (data : VerifyClaimData)
    (context : CallableContext) : M Success :=
  match auth context with
  | None => throw unauthenticated_error
  | Some a =>
      try_catch (verifyClaimOTP_try env data a)
        (fun _ => throw (HttpsError internal "Failed to verify OTP"))
  end.

(** ** findMatches *)

Record FindMatchesData : Type := { itemLabels : list string; itemType : string }.

Definition oppositeType (itemType : string) : ItemType :=
  if String.eqb itemType "lost" then found else lost.

Definition findMatches (data : FindMatchesData) (context : CallableContext)
    : M (list Matcher.Match) :=
  match auth context with
  | None => throw unauthenticated_error
  | Some _ =>
      try_catch
        (let* docs := items_query (oppositeType (itemType data)) in
         ret (Matcher.findMatches_run (itemLabels data) docs))
        (fun _ => throw (HttpsError internal "Failed to find matches"))
  end.

(** ** sendMatchNotification: the [onCreate] trigger of [items/{itemId}] *)

(** The loop awaits one [add] per notified candidate; the additions do
    not change the snapshot the loop runs over, so they are made here
    one after the other, in the order of the loop. *)
Fixpoint addAll (ns : list Matcher.Notification) : M unit :=
  match ns with
  | [] => ret tt
  | n :: ns' => do* notifications_add n in addAll ns'
  end.

Definition sendMatchNotification (env : Env) (itemId : string) (item : Item) : M unit :=
  match type item with
  | lost =>
      let* docs := items_query found in
      addAll (Matcher.notify_run (now env) itemId item docs)
  | found => ret tt
  end.

(** ** Vocabulary of the statements about the claim verification *)

Definition verify_internal_error : exn :=
  HttpsError internal "Failed to verify OTP".

(** The store after a successful verification, which needs a caller
    whose token carries an email. *)
Definition claimedStore (env : Env) (itemId : string) (a : Auth) (it : Item)
    (st : Store) : Store :=
  set_otps (fun m => delete (otpId itemId (uid a)) m)
    (set_items
       (fun m => <[itemId := claimPatch (uid a) (token_email a) (now env) it]> m)
       st).

(** The store after the challenge has been written and the mail sent. *)
Definition challengedStore (env : Env) (data : SendClaimData) (a : Auth)
    (st : Store) : Store :=
  let code := Otp.generateOtp (random env) in
  set_outbox (fun l => l ++ [otpMail (send_userEmail data) code])
    (set_otps
       (fun m => <[otpId (send_itemId data) (uid a)
                   := newOtpDoc env code (send_itemId data) (uid a)]> m)
       st).

End Functions.

(* ===================================================================== *)
(** * The claim page of the client *)
(* ===================================================================== *)

Module ClaimPage.

(** The signed-in user of [useAuth()]. *)
Record User : Type := { user_uid : string; user_email : option string }.

(** The state of the component: the route parameter, the user, and the
    [useState] cells. *)
Record State : Type := {
  id : option string;
  user : option User;
  item : option Item;
  otp : string;
  sentOtp : bool;
  verifying : bool;
  generatedOtp : string;
}.

(** The calls a handler makes on its collaborators, in order. *)
Inductive Call : Type :=
  | UpdateDoc (docId : string)
  | ToastSuccess (msg : string)
  | ToastError (msg : string)
  | ConsoleLog (msg : string)
  | ConsoleError (msg : string)
  | Navigate (path : string).

(** Truthiness of a string that may be [null] or [undefined]. *)
Definition truthy (s : option string) : bool :=
  match s with
  | Some EmptyString | None => false
  | Some _ => true
  end.

Definition setOtp (v : string) (p : State) : State :=
  {| id := id p; user := user p; item := item p; otp := v;
     sentOtp := sentOtp p; verifying := verifying p;
     generatedOtp := generatedOtp p |}.

Definition setVerifying (b : bool) (p : State) : State :=
  {| id := id p; user := user p; item := item p; otp := otp p;
     sentOtp := sentOtp p; verifying := b;
     generatedOtp := generatedOtp p |}.

(** [setGeneratedOtp(code); setSentOtp(true)] *)
Definition setGenerated (code : string) (p : State) : State :=
  {| id := id p; user := user p; item := item p; otp := otp p;
     sentOtp := true; verifying := verifying p;
     generatedOtp := code |}.

(** [sendOtp], with [r] the value of [Math.random()]. *)
Definition sendOtp (r : Q) (p : State) : State * list Call :=
  match user p, item p with
  | Some u, Some _ =>
      if truthy (user_email u) then
        let code := Otp.generateOtp r in
        (setGenerated code p,
         [ConsoleLog ("Generated OTP: " +:+ code);
          ToastSuccess ("OTP sent to " +:+ default EmptyString (user_email u)
                          +:+ ": " +:+ code)])
      else (p, [])
  | _, _ => (p, [])
  end.

(** The [try] block of [verifyOtp]; [at_] is [new Date()]. *)
Definition verifyOtp_try (at_ : Z) (p : State) (u : User) (docId : string)
    : M (list Call) :=
  if String.eqb (otp p) (generatedOtp p) then
    do* Firestore.items_update docId
          (Functions.claimPatch (user_uid u) (user_email u) at_) in
    ret [UpdateDoc docId; ToastSuccess "Item claimed successfully!";
         Navigate "/profile"]
  else ret [ToastError "Invalid OTP. Please try again."].

(** [verifyOtp]: the state of the component after it, the calls made,
    and the store. *)
Definition verifyOtp (at_ : Z) (p : State) (s : Store) : (State * list Call) * Store :=
  match user p, item p, id p with
  | Some u, Some _, Some docId =>
      if truthy (Some docId) then
        match verifyOtp_try at_ (setVerifying true p) u docId s with
        | (Return calls, s') => ((setVerifying false p, calls), s')
        | (Throw _, s') =>
            ((setVerifying false p,
              [UpdateDoc docId; ConsoleError "Error verifying OTP:";
               ToastError "Error verifying OTP"]), s')
        end
      else ((p, []), s)
  | _, _, _ => ((p, []), s)
  end.

End ClaimPage.

(** ** Concrete stores and calls *)

Module Examples.

Import Functions.

Definition alice : Auth :=
  {| uid := "alice"; token_email := Some "alice@campus.edu" |}.
Definition asAlice : CallableContext := {| auth := Some alice |}.

(** A caller who signed in with a phone number: the token has no email. *)
Definition carol : Auth := {| uid := "carol"; token_email := None |}.
Definition asCarol : CallableContext := {| auth := Some carol |}.

(** An unclaimed found item. *)
Definition phone : Item :=
  {| userId := "finder"; userEmail := "finder@campus.edu"; type := found;
     title := "Black iPhone"; imageLabels := Some ["phone"; "electronics"];
     status := unclaimed;
     claimantId := None; claimantEmail := None; claimedAt := None |}.

(** The posting of someone who lost such a phone. *)
Definition lostPhone : Item :=
  {| userId := "owner"; userEmail := "owner@campus.edu"; type := lost;
     title := "Lost iPhone"; imageLabels := Some ["phone"; "electronics"];
     status := unclaimed;
     claimantId := None; claimantEmail := None; claimedAt := None |}.

(** The same item once a first claimant has claimed it. *)
Definition phoneClaimed : Item :=
  claimPatch "bob" (Some "bob@campus.edu") 500 phone.

Definition challenge (code : string) (expiresAt : Z) : OtpDoc :=
  {| otp_code := code; otp_itemId := "item1"; otp_userId := "alice";
     otp_createdAt := expiresAt - 600000; otp_expiresAt := expiresAt |}.

Definition storeOf (it : Item) (challenges : gmap string OtpDoc) : Store :=
  {| items := {[ "item1" := it ]}; otps := challenges;
     notifications := []; outbox := [] |}.

(** A store in which Alice holds a challenge with code 482913 that
    expires at time 601000. *)
Definition challenged : Store :=
  storeOf phone {[ "item1_alice" := challenge "482913" 601000 ]}.

Definition at_time (t : Z) : Env :=
  {| now := t; random := 1 # 2; mailDelivered := true |}.

Definition submit (code : string) : VerifyClaimData :=
  {| verify_itemId := "item1"; verify_otp := code |}.

Definition askFor (itemId : string) : SendClaimData :=
  {| send_itemId := itemId; send_userEmail := "alice@campus.edu" |}.

(** Carol's request for a code, with the address she typed in. *)
Definition carolAsks : SendClaimData :=
  {| send_itemId := "item1"; send_userEmail := "carol@campus.edu" |}.

(** The page of a signed-in user who has been sent the code 550000 and
    has typed it in. *)
Definition alicePage : ClaimPage.State :=
  {| ClaimPage.id := Some "item1";
     ClaimPage.user := Some {| ClaimPage.user_uid := "alice";
                               ClaimPage.user_email := Some "alice@campus.edu" |};
     ClaimPage.item := Some phone;
     ClaimPage.otp := "550000";
     ClaimPage.sentOtp := true;
     ClaimPage.verifying := false;
     ClaimPage.generatedOtp := "550000" |}.

End Examples.

(* ===================================================================== *)
(** * The remaining Cloud Function, and the snapshot of a query *)
(* ===================================================================== *)

Module Labeling.


(** The documents the query of [findMatches] and of
    [sendMatchNotification] returns on a store. *)
Definition snapshot (ty : ItemType) (st : Store) : list Doc :=
  match fst (Firestore.items_query ty st) with
  | Return docs => docs
  | Throw _ => []
  end.

(** The character [_] does not occur in the string. *)
Fixpoint no_underscore (s : string) : bool :=
  match s with
  | EmptyString => true
  | String c s' => negb (Ascii.eqb c "_") && no_underscore s'
  end.

End Labeling.

Module Relabel.

(** The item with other labels. *)
Definition withLabels (labels : option (list string)) (it : Item) : Item :=
  {| userId := userId it; userEmail := userEmail it; type := type it;
     title := title it; imageLabels := labels;
     status := status it;
     claimantId := claimantId it; claimantEmail := claimantEmail it;
     claimedAt := claimedAt it |}.

(** The labels of an item, none when the field is absent. *)
Definition labelsOf (it : Item) : list string := default [] (imageLabels it).

End Relabel.

(** The computation of the matcher with the lowercasing left open:
    [lower] stands for [String.prototype.toLowerCase], of which [Str]
    writes out the letters [A] to [Z] only. *)
Module Folded.

Section Lower.

Variable lower : string -> string.

(** [itemLabels.some(l => l.toLowerCase().includes(label.toLowerCase()))] *)
Definition someIncludes (itemLabels : list string) (label : string) : bool :=
  existsb (fun l => Str.includes (lower l) (lower label)) itemLabels.

(** [item.imageLabels?.filter(label => itemLabels.some(...)) || []] *)
Definition commonLabels (itemLabels : list string) (item : Item) : list string :=
  match imageLabels item with
  | Some labels => List.filter (someIncludes itemLabels) labels
  | None => []
  end.

(** [(commonLabels.length / itemLabels.length) * 100] *)
Definition similarity (itemLabels : list string) (item : Item) : Num.number :=
  Num.mul (Num.div (Num.of_nat (length (commonLabels itemLabels item)))
                   (Num.of_nat (length itemLabels)))
          (Num.of_Z 100).

End Lower.

End Folded.

(* ===================================================================== *)
(** * The claim page as the user drives it *)
(* ===================================================================== *)

Module ClaimPageUi.

Import ClaimPage.

(** The component: its state, the [loading] flag, and whether a handler
    has navigated away from the page. *)
Record Page : Type := {
  state : State;
  loading : bool;
  left : bool;
}.

(** What the component renders. *)
Inductive View : Type :=
  | LoadingView
  | ItemNotFound
  | AlreadyClaimed
  | SendForm
  | VerifyForm.

Definition render (pg : Page) : View :=
  if loading pg then LoadingView
  else match item (state pg) with
       | None => ItemNotFound
       | Some it =>
           if bool_decide (status it = claimed) then AlreadyClaimed
           else if sentOtp (state pg) then VerifyForm else SendForm
       end.

(** [disabled={verifying || otp.length !== 6}] of the Claim button. *)
Definition claimDisabled (p : State) : bool :=
  verifying p || negb (String.length (otp p) =? 6)%nat.

(** The Resend button: [setSentOtp(false); setOtp('')]. *)
Definition resend (p : State) : State :=
  {| id := id p; user := user p; item := item p; otp := EmptyString;
     sentOtp := false; verifying := verifying p;
     generatedOtp := generatedOtp p |}.

Definition setItem (it : Item) (p : State) : State :=
  {| id := id p; user := user p; item := Some it; otp := otp p;
     sentOtp := sentOtp p; verifying := verifying p;
     generatedOtp := generatedOtp p |}.

(** [loadItem], run by the effect on mount when the route has an id. The
    timestamps of the document, which every posting page writes, are not
    part of the model. *)
Definition loadItem (pg : Page) (st : Store) : Page * list Call :=
  if truthy (id (state pg)) then
    match items st !! default EmptyString (id (state pg)) with
    | Some it =>
        ({| state := setItem it (state pg); loading := false; left := left pg |}, [])
    | None =>
        ({| state := state pg; loading := false; left := true |},
         [ToastError "Item not found"; Navigate "/search"])
    end
  else (pg, []).

(** What the user and the runtime do to the page. *)
Inductive Event : Type :=
  | Mount
  | ClickSend (r : Q)
  | TypeOtp (v : string)
  | ClickVerify (at_ : Z)
  | ClickResend.

(** [Math.random()] returns a number from 0 up to, not including, 1. *)
Definition valid_event (ev : Event) : Prop :=
  match ev with
  | ClickSend r => (0 <= r)%Q /\ (r < 1)%Q
  | _ => True
  end.

Definition navigates (calls : list Call) : bool :=
  existsb (fun c => match c with Navigate _ => true | _ => false end) calls.

(** One event: the handler runs when its control is rendered and
    enabled, and nothing runs once the page has been left. *)
Definition step (ev : Event) (cfg : Page * Store) : (Page * Store) * list Call :=
  let (pg, st) := cfg in
  if left pg then (cfg, [])
  else
    match ev, render pg with
    | Mount, LoadingView =>
        let (pg', calls) := loadItem pg st in ((pg', st), calls)
    | ClickSend r, SendForm =>
        let (p', calls) := sendOtp r (state pg) in
        (({| state := p'; loading := loading pg; left := left pg |}, st), calls)
    | TypeOtp v, VerifyForm =>
        (({| state := setOtp v (state pg); loading := loading pg; left := left pg |},
          st), [])
    | ClickResend, VerifyForm =>
        (({| state := resend (state pg); loading := loading pg; left := left pg |},
          st), [])
    | ClickVerify at_, VerifyForm =>
        if claimDisabled (state pg) then (cfg, [])
        else
          let '((p', calls), st') := verifyOtp at_ (state pg) st in
          (({| state := p'; loading := loading pg;
               left := left pg || navigates calls |}, st'), calls)
    | _, _ => (cfg, [])
    end.

(** A sequence of events, with all the calls made. *)
Fixpoint run (evs : list Event) (cfg : Page * Store) : (Page * Store) * list Call :=
  match evs with
  | [] => (cfg, [])
  | ev :: evs' =>
      let (cfg', calls) := step ev cfg in
      let (cfg'', calls') := run evs' cfg' in
      (cfg'', calls ++ calls')
  end.

(** The page as it is mounted: the initial values of the [useState]
    cells. *)
Definition mounted (routeId : option string) (u : option User) : Page :=
  {| state := {| id := routeId; user := u; item := None; otp := EmptyString;
                 sentOtp := false; verifying := false;
                 generatedOtp := EmptyString |};
     loading := true; left := false |}.

(** The string is the decimal form of a number from 100000 to 999999. *)
Definition six_digit_code (s : string) : Prop :=
  exists n, 100000 <= n <= 999999 /\ s = Otp.toString n.

(** While the verification form is due, the component holds a
    six-digit code. *)
Definition code_kept (pg : Page) : Prop :=
  sentOtp (state pg) = true -> six_digit_code (generatedOtp (state pg)).

End ClaimPageUi.

(** ** The card of an item and the pages that show it *)

Module ItemCard.

(** [showClaimButton && item.status === 'unclaimed'] *)
Definition claimLinkShown (showClaimButton : bool) (it : Item) : bool :=
  showClaimButton && bool_decide (status it = unclaimed).

(** The search page passes
    [item.type === 'found' && item.status === 'unclaimed']. *)
Definition searchPageShowsClaim (it : Item) : bool :=
  claimLinkShown (bool_decide (type it = found) && bool_decide (status it = unclaimed)) it.

(** The home page passes [item.type === 'found']. *)
Definition homePageShowsClaim (it : Item) : bool :=
  claimLinkShown (bool_decide (type it = found)) it.

(** The label chips: [item.imageLabels.slice(0, 3)]. *)
Definition shownLabels (labels : list string) : list string := take 3 labels.

(** The text after the chips: [+{length - 3} more] when there are more
    than three labels. *)
Definition moreLabels (labels : list string) : option nat :=
  if (3 <? length labels)%nat then Some (length labels - 3)%nat else None.

End ItemCard.

(* ===================================================================== *)
(** * The page that reports a lost item *)
(* ===================================================================== *)

Module LostItemPage.

(** [Math.floor(Math.random() * 30) + 70], with [r] the value of
    [Math.random()]. *)
Definition mockScore (r : Q) : Z := Otp.Math_floor (r * 30)%Q + 70.

(** The test of the filter: [commonLabels.length > 0]. Reading
    [item.imageLabels.filter] of an item without labels throws ([None]). *)
Definition hasCommonLabel (labels : list string) (it : Item) : option bool :=
  match imageLabels it with
  | Some ls => Some (0 <? length (List.filter (Matcher.someIncludes labels) ls))%nat
  | None => None
  end.

(** [foundItems.filter(...)]: the items with a common label, or [None]
    when the test throws on some item. *)
Fixpoint filterFound (labels : list string) (docs : list Doc) : option (list Doc) :=
  match docs with
  | [] => Some []
  | d :: docs' =>
      match hasCommonLabel labels (doc_data d) with
      | None => None
      | Some keep =>
          match filterFound labels docs' with
          | None => None
          | Some rest => Some (if keep then d :: rest else rest)
          end
      end
  end.

(** [.map(item => ({ ...item, matchScore: ... }))], with [rand k] the
    value of the call of [Math.random()] for the item at index [k]. *)
Definition withScores (rand : nat -> Q) (docs : list Doc) : list (Doc * Z) :=
  imap (fun k d => (d, mockScore (rand k))) docs.

(** The two [useState] cells the function writes. *)
Record MatchesState : Type := {
  potentialMatches : list (Doc * Z);
  showMatches : bool;
}.

Inductive Note : Type :=
  | ToastFound (n : nat)
  | ConsoleErrorFinding.

(** [findPotentialMatches(labels)] on the store. *)
Definition findPotentialMatches (labels : list string) (rand : nat -> Q)
    (ui : MatchesState) (st : Store) : MatchesState * list Note :=
  match filterFound labels (Labeling.snapshot found st) with
  | Some kept =>
      let matches := withScores rand kept in
      if (0 <? length matches)%nat then
        ({| potentialMatches := matches; showMatches := true |},
         [ToastFound (length matches)])
      else ({| potentialMatches := matches; showMatches := showMatches ui |}, [])
  | None => (ui, [ConsoleErrorFinding])
  end.

End LostItemPage.

(* ===================================================================== *)
(** * The lists of the client pages *)
(* ===================================================================== *)

Module Client.

Import Str.

(** The [Item] interface of the client: a document with its id. *)
Record ClientItem : Type := {
  c_id : string;
  c_userId : string;
  c_userEmail : string;
  c_type : ItemType;
  c_title : string;
  c_description : string;
  c_location : string;
  c_imageUrl : option string;
  c_imageLabels : list string;
  c_status : ItemStatus;
  c_createdAt : Z;
  c_updatedAt : Z;
  c_claimantId : option string;
  c_claimantEmail : option string;
  c_claimedAt : option Z;
  c_verificationCode : option string;
  c_matchScore : option Z;
  c_isApproved : option bool;
}.

(** ** The search page *)

Inductive TypeFilter : Type := AllTypes | OnlyType (t : ItemType).
Inductive StatusFilter : Type := AllStatuses | OnlyUnclaimed | OnlyClaimed.

(** The state the filter reads; [selectedLocation] is ["all"] or a
    location. *)
Record SearchFilters : Type := {
  searchTerm : string;
  selectedType : TypeFilter;
  selectedStatus : StatusFilter;
  selectedLocation : string;
}.

(** [a.toLowerCase().includes(b.toLowerCase())] *)
Definition containsNoCase (a b : string) : bool :=
  includes (toLowerCase a) (toLowerCase b).

Definition matchesTerm (term : string) (it : ClientItem) : bool :=
  containsNoCase (c_title it) term
  || containsNoCase (c_description it) term
  || containsNoCase (c_location it) term
  || existsb (fun label => containsNoCase label term) (c_imageLabels it).

Definition hasType (f : TypeFilter) (it : ClientItem) : bool :=
  match f with
  | AllTypes => true
  | OnlyType t => bool_decide (c_type it = t)
  end.

Definition statusOf (f : StatusFilter) : option ItemStatus :=
  match f with
  | AllStatuses => None
  | OnlyUnclaimed => Some unclaimed
  | OnlyClaimed => Some claimed
  end.

(** [filterItems] of the search page. *)
Definition searchFilterItems (f : SearchFilters) (items : list ClientItem)
    : list ClientItem :=
  let filtered := items in
  let filtered :=
    match searchTerm f with
    | EmptyString => filtered
    | term => List.filter (matchesTerm term) filtered
    end in
  let filtered :=
    match selectedType f with
    | AllTypes => filtered
    | OnlyType t => List.filter (fun it => bool_decide (c_type it = t)) filtered
    end in
  let filtered :=
    match statusOf (selectedStatus f) with
    | None => filtered
    | Some s => List.filter (fun it => bool_decide (c_status it = s)) filtered
    end in
  if String.eqb (selectedLocation f) "all" then filtered
  else List.filter (fun it => containsNoCase (c_location it) (selectedLocation f))
         filtered.

(** The four tests of the search page as one. *)
Definition passes (f : SearchFilters) (it : ClientItem) : bool :=
  (match searchTerm f with
   | EmptyString => true
   | term => matchesTerm term it
   end)
  && hasType (selectedType f) it
  && (match statusOf (selectedStatus f) with
      | None => true
      | Some s => bool_decide (c_status it = s)
      end)
  && (if String.eqb (selectedLocation f) "all" then true
      else containsNoCase (c_location it) (selectedLocation f)).

(** A posting with the given id, title, type and status. *)
Definition posting (id_ title_ : string) (ty : ItemType) (st : ItemStatus) : ClientItem :=
  {| c_id := id_; c_userId := "finder"; c_userEmail := "finder@campus.edu";
     c_type := ty; c_title := title_; c_description := EmptyString;
     c_location := "Library"; c_imageUrl := None; c_imageLabels := [];
     c_status := st; c_createdAt := 0; c_updatedAt := 0;
     c_claimantId := None; c_claimantEmail := None; c_claimedAt := None;
     c_verificationCode := None; c_matchScore := None; c_isApproved := None |}.

(** Nothing selected: no search term, every type, status and location. *)
Definition noFilters : SearchFilters :=
  {| searchTerm := EmptyString; selectedType := AllTypes;
     selectedStatus := AllStatuses; selectedLocation := "all" |}.

(** ** The admin page *)

Inductive AdminFilter : Type := AllItems | PendingApproval | Approved | Claimed.

(** [filterItems] of the admin page. *)
Definition adminFilterItems (sel : AdminFilter) (items : list ClientItem)
    : list ClientItem :=
  match sel with
  | PendingApproval =>
      List.filter (fun it => bool_decide (c_isApproved it = Some false)) items
  | Approved =>
      List.filter (fun it => bool_decide (c_isApproved it = Some true)) items
  | Claimed =>
      List.filter (fun it => bool_decide (c_status it = claimed)) items
  | AllItems => items
  end.

Record AdminStats : Type := {
  totalItems : nat;
  pendingApproval : nat;
  claimedItems : nat;
  flaggedItems : nat;
}.

(** [calculateStats] *)
Definition calculateStats (items : list ClientItem) : AdminStats :=
  {| totalItems := length items;
     pendingApproval :=
       length (List.filter (fun it => bool_decide (c_isApproved it = Some false)) items);
     claimedItems :=
       length (List.filter (fun it => bool_decide (c_status it = claimed)) items);
     flaggedItems :=
       length (List.filter (fun it => bool_decide (c_status it = pending)) items) |}.

(** [{ ...item, isApproved: true }] *)
Definition approve (it : ClientItem) : ClientItem :=
  {| c_id := c_id it; c_userId := c_userId it; c_userEmail := c_userEmail it;
     c_type := c_type it; c_title := c_title it;
     c_description := c_description it; c_location := c_location it;
     c_imageUrl := c_imageUrl it; c_imageLabels := c_imageLabels it;
     c_status := c_status it; c_createdAt := c_createdAt it;
     c_updatedAt := c_updatedAt it; c_claimantId := c_claimantId it;
     c_claimantEmail := c_claimantEmail it; c_claimedAt := c_claimedAt it;
     c_verificationCode := c_verificationCode it;
     c_matchScore := c_matchScore it;
     c_isApproved := Some true |}.

(** [handleApprove]: the list of the page after it; [written] tells
    whether the [updateDoc] went through. *)
Definition handleApprove (written : bool) (itemId : string)
    (items : list ClientItem) : list ClientItem :=
  if written then
    List.map (fun it => if String.eqb (c_id it) itemId then approve it else it) items
  else items.

(** [handleReject]: the list of the page after it; [deleted] tells
    whether the [deleteDoc] went through. *)
Definition handleReject (deleted : bool) (itemId : string)
    (items : list ClientItem) : list ClientItem :=
  if deleted then List.filter (fun it => negb (String.eqb (c_id it) itemId)) items
  else items.

(** ** The profile page *)

Record ProfileStats : Type := {
  totalSubmitted : nat;
  foundItems : nat;
  lostItems : nat;
  claimedCount : nat;
  unclaimedItems : nat;
  successfulReturns : nat;
}.

(** The [stats] of the profile page, from the items the user submitted
    and the items the user claimed. *)
Definition profileStats (userItems claimedItems : list ClientItem) : ProfileStats :=
  {| totalSubmitted := length userItems;
     foundItems := length (List.filter (fun it => bool_decide (c_type it = found)) userItems);
     lostItems := length (List.filter (fun it => bool_decide (c_type it = lost)) userItems);
     claimedCount := length claimedItems;
     unclaimedItems :=
       length (List.filter (fun it => bool_decide (c_status it = unclaimed)) userItems);
     successfulReturns :=
       length (List.filter (fun it => bool_decide (c_status it = claimed)) userItems) |}.

End Client.

(* ===================================================================== *)
(** * Properties of strings and numbers *)
(* ===================================================================== *)

Module StrFacts.

Import Str.

Lemma startsWith_spec (s t : string) :
  startsWith s t = true <-> exists post, s = (t ++ post)%string.
Proof.
  revert s; induction t as [|b t IH]; intros s; simpl.
  - split; [intros _; now exists s | reflexivity].
  - destruct s as [|a s].
    + split; [discriminate | intros [post H]; discriminate].
    + destruct (Ascii.eqb_spec a b) as [->|Hne].
      * rewrite IH. split; intros [post H]; exists post.
        -- now rewrite H.
        -- now injection H.
      * split; [discriminate|]. intros [post H]. injection H as H1 _. congruence.
Qed.

Lemma includes_spec (s t : string) :
  includes s t = true <-> substring_of t s.
Proof.
  unfold substring_of. induction s as [|a s IH]; simpl.
  - rewrite orb_false_r, startsWith_spec. split.
    + intros [post H]. now exists EmptyString, post.
    + intros [pre [post H]]. destruct pre; simpl in H.
      * now exists post.
      * discriminate.
  - rewrite orb_true_iff, startsWith_spec, IH. split.
    + intros [[post H]|[pre [post H]]].
      * now exists EmptyString, post.
      * exists (String a pre), post. simpl. now rewrite H.
    + intros [pre [post H]]. destruct pre as [|c pre]; simpl in H.
      * left. now exists post.
      * right. injection H as _ H. now exists pre, post.
Qed.

Lemma includes_refl (s : string) : includes s s = true.
Proof.
  apply includes_spec. exists EmptyString, EmptyString.
  change (s = String.append s EmptyString).
  induction s as [|a s IH]; [reflexivity|].
  change (String a s = String a (String.append s EmptyString)). f_equal. exact IH.
Qed.

End StrFacts.

Module NumFacts.

Import Num.

Lemma gt_finite (p q : Q) : gt (Finite p) (Finite q) = true <-> (q < p)%Q.
Proof.
  simpl. rewrite negb_true_iff. split.
  - intros H. apply Qnot_le_lt. intros Hle. apply Qle_bool_iff in Hle. congruence.
  - intros H. destruct (Qle_bool p q) eqn:E; [|reflexivity].
    apply Qle_bool_iff in E. exfalso. eapply Qlt_not_le; eauto.
Qed.

Lemma gt_finite_false (p q : Q) : gt (Finite p) (Finite q) = false <-> (p <= q)%Q.
Proof.
  simpl. rewrite negb_false_iff. apply Qle_bool_iff.
Qed.

Lemma eqb_finite (p q : Q) : eqb (Finite p) (Finite q) = true <-> (p == q)%Q.
Proof. simpl. apply Qeq_bool_iff. Qed.

End NumFacts.

(* ===================================================================== *)
(** * Properties of the matcher *)
(* ===================================================================== *)

Module MatcherFacts.

Import Str StrFacts Matcher.

Lemma someIncludes_spec (q : list string) (L : string) :
  someIncludes q L = true <->
  exists l, In l q /\ substring_of (toLowerCase L) (toLowerCase l).
Proof.
  unfold someIncludes. rewrite existsb_exists.
  split; intros [l [Hin H]]; exists l; split; auto; now apply includes_spec.
Qed.

Lemma someIncludes_nil (L : string) : someIncludes [] L = false.
Proof. reflexivity. Qed.

Lemma filter_all_false {A} (f : A -> bool) (l : list A) :
  (forall x, f x = false) -> List.filter f l = [].
Proof.
  intros H. induction l as [|x l IH]; simpl; [reflexivity|]. now rewrite H.
Qed.

Lemma commonLabels_nil (item : Item) : commonLabels [] item = [].
Proof.
  unfold commonLabels. destruct (imageLabels item); [|reflexivity].
  apply filter_all_false, someIncludes_nil.
Qed.

Lemma commonLabels_opt_Some (q : list string) (item : Item) :
  commonLabels_opt (Some q) item = commonLabels q item.
Proof. reflexivity. Qed.

Lemma commonLabels_opt_None (item : Item) : commonLabels_opt None item = [].
Proof.
  unfold commonLabels_opt. destruct (imageLabels item); [|reflexivity].
  now apply filter_all_false.
Qed.

Lemma similarity_opt_Some (q : list string) (item : Item) :
  similarity_opt (Some q) item = similarity q item.
Proof. reflexivity. Qed.

(** The quotient of two lengths when the denominator is not zero. *)
Lemma div_lengths (c n : nat) :
  n <> 0%nat ->
  Num.div (Num.of_nat c) (Num.of_nat n)
  = Num.Finite (inject_Z (Z.of_nat c) / inject_Z (Z.of_nat n)).
Proof.
  intros Hn. unfold Num.div, Num.of_nat.
  destruct (Qeq_bool (inject_Z (Z.of_nat n)) 0) eqn:E; [|reflexivity].
  apply Qeq_bool_iff in E. unfold Qeq in E. simpl in E. lia.
Qed.

Lemma similarity_nonempty (q : list string) (item : Item) :
  q <> [] ->
  similarity q item
  = Num.Finite (inject_Z (Z.of_nat (length (commonLabels q item)))
                / inject_Z (Z.of_nat (length q)) * inject_Z 100).
Proof.
  intros Hq. unfold similarity. rewrite div_lengths; [reflexivity|].
  destruct q; [congruence | simpl; lia].
Qed.

(** A positive threshold is only exceeded when some label is common:
    the guard [commonLabels.length > 0] never hides a match. *)
Lemma gt_threshold_common (labels : option (list string)) (item : Item) (t : Z) :
  0 <= t ->
  Num.gt (similarity_opt labels item) (Num.of_Z t) = true ->
  (0 <? length (commonLabels_opt labels item))%nat = true.
Proof.
  intros Ht H. apply Nat.ltb_lt.
  destruct (length (commonLabels_opt labels item)) as [|c] eqn:Ec; [|lia].
  exfalso. unfold similarity_opt in H. rewrite Ec in H.
  destruct labels as [q|]; simpl in H; [|discriminate].
  destruct (Qeq_bool (inject_Z (Z.of_nat (length q))) 0) eqn:E; simpl in H.
  - discriminate.
  - apply negb_true_iff in H.
    assert (Hle : (0 / inject_Z (Z.of_nat (length q)) * inject_Z 100 <= inject_Z t)%Q).
    { unfold Qdiv. rewrite !Qmult_0_l.
      change 0%Q with (inject_Z 0). rewrite <- Zle_Qle. exact Ht. }
    apply Qle_bool_iff in Hle.
    change (inject_Z (Z.of_nat 0)) with 0%Q in H. congruence.
Qed.


End MatcherFacts.

(** ** The stable sort by descending similarity *)

Module SortFacts.

Import Matcher.



Lemma sort_insert_perm (x : Match) (l : list Match) :
  Permutation (sort_insert compareFn x l) (x :: l).
Proof.
  induction l as [|y l IH]; simpl; [reflexivity|].
  destruct (Num.gt (compareFn x y) (Num.of_Z 0)); [|reflexivity].
  rewrite IH. apply perm_swap.
Qed.

Lemma sort_perm (l : list Match) : Permutation (sort compareFn l) l.
Proof.
  induction l as [|x l IH]; simpl; [reflexivity|].
  rewrite sort_insert_perm. now constructor.
Qed.







End SortFacts.

(** ** What the two loops compute *)

Module MatcherClaims.

Import Str StrFacts Matcher MatcherFacts SortFacts.

Lemma findMatches_step_eq (q : list string) (acc : list Match) (d : Doc) :
  findMatches_step q acc d = acc ++ (if over60 q d then [mkMatch q d] else []).
Proof.
  unfold findMatches_step, over60.
  destruct (0 <? length (commonLabels q (doc_data d)))%nat eqn:G.
  - destruct (Num.gt _ _); [reflexivity | now rewrite app_nil_r].
  - destruct (Num.gt (similarity q (doc_data d)) (Num.of_Z 60)) eqn:E.
    + apply (gt_threshold_common (Some q) (doc_data d) 60) in E; [|lia].
      rewrite commonLabels_opt_Some in E. congruence.
    + now rewrite app_nil_r.
Qed.

Lemma findMatches_fold (q : list string) (docs : list Doc) (acc : list Match) :
  fold_left (findMatches_step q) docs acc
  = acc ++ List.map (mkMatch q) (List.filter (over60 q) docs).
Proof.
  revert acc. induction docs as [|d docs IH]; intros acc; simpl.
  - now rewrite app_nil_r.
  - rewrite IH, findMatches_step_eq. destruct (over60 q d); simpl.
    + now rewrite <- app_assoc.
    + now rewrite app_nil_r.
Qed.

Lemma findMatches_collect_eq (q : list string) (docs : list Doc) :
  findMatches_collect q docs = List.map (mkMatch q) (List.filter (over60 q) docs).
Proof. unfold findMatches_collect. now rewrite findMatches_fold. Qed.

Lemma notify_step_eq (at_ : Z) (itemId : string) (item : Item)
    (acc : list Notification) (d : Doc) :
  notify_step at_ itemId item acc d
  = acc ++ (if over80 (imageLabels item) d then [matchNotification at_ itemId d] else []).
Proof.
  unfold notify_step, over80.
  destruct (0 <? length (commonLabels_opt (imageLabels item) (doc_data d)))%nat eqn:G.
  - destruct (Num.gt _ _); [reflexivity | now rewrite app_nil_r].
  - destruct (Num.gt (similarity_opt (imageLabels item) (doc_data d)) (Num.of_Z 80)) eqn:E.
    + apply (gt_threshold_common _ _ 80) in E; [|lia]. congruence.
    + now rewrite app_nil_r.
Qed.

Lemma notify_fold (at_ : Z) (itemId : string) (item : Item)
    (docs : list Doc) (acc : list Notification) :
  fold_left (notify_step at_ itemId item) docs acc
  = acc ++ List.map (matchNotification at_ itemId)
             (List.filter (over80 (imageLabels item)) docs).
Proof.
  revert acc. induction docs as [|d docs IH]; intros acc; simpl.
  - now rewrite app_nil_r.
  - rewrite IH, notify_step_eq. destruct (over80 (imageLabels item) d); simpl.
    + now rewrite <- app_assoc.
    + now rewrite app_nil_r.
Qed.



Lemma mkMatch_inj (q : list string) (d d' : Doc) : mkMatch q d = mkMatch q d' -> d = d'.
Proof.
  unfold mkMatch. intros [= Hid Hdata]. destruct d, d'; simpl in *. congruence.
Qed.

Lemma in_run_collect (q : list string) (pool : list Doc) (m : Match) :
  In m (findMatches_run q pool) <-> In m (findMatches_collect q pool).
Proof.
  unfold findMatches_run. split; apply Permutation_in;
    [apply sort_perm | symmetry; apply sort_perm].
Qed.

(** C1. For a non-empty [queryLabels], [commonLabels] keeps exactly the
    labels [L] of [candidate.imageLabels] (in their order) for which some
    query label, lowercased, contains the lowercased [L] as a substring,
    and the similarity is [|commonLabels| / |queryLabels| * 100]: as the
    value of the formula, as the score attached to every match
    [findMatches] returns, and as the score of the notification path
    whose query labels are the labels of the new posting. *)
Theorem commonLabels_and_similarity (queryLabels : list string) (candidate : Item) :
  queryLabels <> [] ->
  (forall L, In L (commonLabels queryLabels candidate) <->
     In L (default [] (imageLabels candidate)) /\
     exists l, In l queryLabels /\ substring_of (toLowerCase L) (toLowerCase l))
  /\ commonLabels queryLabels candidate
     = List.filter (someIncludes queryLabels) (default [] (imageLabels candidate))
  /\ similarity queryLabels candidate
     = Num.Finite (inject_Z (Z.of_nat (length (commonLabels queryLabels candidate)))
                   / inject_Z (Z.of_nat (length queryLabels)) * inject_Z 100)
  /\ (forall pool m, In m (findMatches_run queryLabels pool) ->
        match_similarity m
        = Num.Finite (inject_Z (Z.of_nat (length (commonLabels queryLabels (match_item m))))
                      / inject_Z (Z.of_nat (length queryLabels)) * inject_Z 100))
  /\ commonLabels_opt (Some queryLabels) candidate = commonLabels queryLabels candidate
  /\ similarity_opt (Some queryLabels) candidate = similarity queryLabels candidate.
Proof.
  intros Hq.
  assert (Hfilter : commonLabels queryLabels candidate
     = List.filter (someIncludes queryLabels) (default [] (imageLabels candidate))).
  { unfold commonLabels. now destruct (imageLabels candidate). }
  split; [|split; [exact Hfilter|split; [now apply similarity_nonempty|split]]].
  - intros L. rewrite Hfilter, filter_In, someIncludes_spec. reflexivity.
  - intros pool m Hm. apply in_run_collect in Hm.
    rewrite findMatches_collect_eq in Hm.
    apply in_map_iff in Hm as [d [<- _]]. simpl. now apply similarity_nonempty.
  - split; reflexivity.
Qed.

(** The query ["Black iPhone"] against the labels ["phone"] and
    ["electronics"]: one common label out of one query label. *)
Lemma commonLabels_and_similarity_witness :
  ["Black iPhone"] <> ([] : list string)
  /\ commonLabels ["Black iPhone"] Examples.phone = ["phone"]
  /\ similarity ["Black iPhone"] Examples.phone
     = Num.Finite (inject_Z 1 / inject_Z 1 * inject_Z 100).
Proof.
  assert (Hq : ["Black iPhone"] <> ([] : list string)) by discriminate.
  pose proof (commonLabels_and_similarity ["Black iPhone"] Examples.phone Hq) as H.
  split; [exact Hq|]. split.
  - exact (proj1 (proj2 H)).
  - exact (proj1 (proj2 (proj2 H))).
Defined.

(** C7. With an empty [queryLabels] the result is empty for every pool:
    no candidate passes the guard [commonLabels.length > 0], and for
    every query that guard and a zero denominator never hold together,
    so the division is never evaluated with a zero denominator; the
    Cloud Function returns the empty list and leaves the store alone. *)
Theorem empty_query_empty_result (pool : list Doc) :
  findMatches_run [] pool = []
  /\ Forall (fun d => (0 <? length (commonLabels [] (doc_data d)))%nat = false) pool
  /\ (forall q item,
        (0 <? length (commonLabels q item))%nat && (length q =? 0)%nat = false)
  /\ (forall ty a st,
        Functions.findMatches
          {| Functions.itemLabels := []; Functions.itemType := ty |}
          {| auth := Some a |} st = (Return [], st)).
Proof.
  assert (Hrun : forall docs, findMatches_run [] docs = []).
  { intros docs. unfold findMatches_run. rewrite findMatches_collect_eq.
    rewrite filter_all_false; [reflexivity|].
    intros d. unfold over60.
    destruct (Num.gt (similarity [] (doc_data d)) (Num.of_Z 60)) eqn:E; [|reflexivity].
    apply (gt_threshold_common (Some []) (doc_data d) 60) in E; [|lia].
    rewrite commonLabels_opt_Some, commonLabels_nil in E. discriminate. }
  split; [apply Hrun|]. split; [|split].
  - apply List.Forall_forall. intros d _. now rewrite commonLabels_nil.
  - intros q item. destruct q as [|l q].
    + now rewrite commonLabels_nil.
    + apply andb_false_r.
  - intros ty a st. unfold Functions.findMatches, try_catch, bind, ret,
      Firestore.items_query. simpl. now rewrite Hrun.
Qed.


End MatcherClaims.

(* ===================================================================== *)
(** * Properties of the one-time code *)
(* ===================================================================== *)

Module OtpFacts.

Import Otp.

Lemma Qfloor_eq (x : Q) (k : Z) :
  Qfloor x = k <-> (inject_Z k <= x /\ x < inject_Z (k + 1))%Q.
Proof.
  split.
  - intros <-. split; [apply Qfloor_le | apply Qlt_floor].
  - intros [Hlo Hhi].
    pose proof (Qfloor_resp_le _ _ Hlo) as H1. rewrite Qfloor_Z in H1.
    pose proof (Qfloor_le x) as H2.
    assert (H3 : (inject_Z (Qfloor x) < inject_Z (k + 1))%Q)
      by (eapply Qle_lt_trans; eauto).
    rewrite <- Zlt_Qlt in H3. lia.
Qed.

Lemma floor_range (r : Q) :
  (0 <= r)%Q -> (r < 1)%Q ->
  100000 <= Math_floor (100000 + r * 900000)%Q <= 999999.
Proof.
  intros H0 H1. unfold Math_floor.
  pose proof (Qfloor_resp_le (inject_Z 100000) (100000 + r * 900000)%Q) as Hlo.
  rewrite Qfloor_Z in Hlo.
  pose proof (Qfloor_le (100000 + r * 900000)%Q) as Hle.
  assert (Hhi : (inject_Z (Qfloor (100000 + r * 900000)) < inject_Z 1000000)%Q).
  { eapply Qle_lt_trans; [exact Hle|]. change (inject_Z 1000000) with 1000000%Q. lra. }
  rewrite <- Zlt_Qlt in Hhi. split; [|lia].
  apply Hlo. change (inject_Z 100000) with 100000%Q. lra.
Qed.

Lemma digit_value_char (d : Z) :
  0 <= d <= 9 -> digit_value (digit_char d) = Some d.
Proof.
  intros Hd. unfold digit_value, digit_char.
  rewrite nat_ascii_embedding by lia.
  destruct (Nat.leb_spec 48 (48 + Z.to_nat d)); [|lia].
  destruct (Nat.leb_spec (48 + Z.to_nat d) 57); [|lia].
  simpl. f_equal. lia.
Qed.

(** The six digits of a number between 100000 and 999999. *)
Lemma toString_six (n : Z) :
  100000 <= n <= 999999 ->
  toString n
  = String (digit_char (n / 100000 mod 10))
     (String (digit_char (n / 10000 mod 10))
       (String (digit_char (n / 1000 mod 10))
         (String (digit_char (n / 100 mod 10))
           (String (digit_char (n / 10 mod 10))
             (String (digit_char (n mod 10)) EmptyString))))).
Proof.
  intros Hn. unfold toString.
  destruct (Z.ltb_spec n 0); [lia|]. unfold digits.
  assert (Hlog : 16 <= Z.log2 n).
  { change 16 with (Z.log2 100000). apply Z.log2_le_mono. lia. }
  destruct (Z.to_nat (Z.log2 n)) as [|[|[|[|[|f]]]]] eqn:Ef; try lia.
  cbn [digits_fuel].
  rewrite !Z.div_div by lia. change (10 * 10) with 100.
  change (100 * 10) with 1000. change (1000 * 10) with 10000.
  change (10000 * 10) with 100000. change (100000 * 10) with 1000000.
  assert (E1 : (n / 10 =? 0) = false) by (apply Z.eqb_neq; Z.div_mod_to_equations; lia).
  assert (E2 : (n / 100 =? 0) = false) by (apply Z.eqb_neq; Z.div_mod_to_equations; lia).
  assert (E3 : (n / 1000 =? 0) = false) by (apply Z.eqb_neq; Z.div_mod_to_equations; lia).
  assert (E4 : (n / 10000 =? 0) = false) by (apply Z.eqb_neq; Z.div_mod_to_equations; lia).
  assert (E5 : (n / 100000 =? 0) = false) by (apply Z.eqb_neq; Z.div_mod_to_equations; lia).
  assert (E6 : (n / 1000000 =? 0) = true) by (apply Z.eqb_eq; Z.div_mod_to_equations; lia).
  now rewrite E1, E2, E3, E4, E5, E6.
Qed.


Lemma toString_six_value (n : Z) :
  100000 <= n <= 999999 -> decimal_value (toString n) = Some n.
Proof.
  intros Hn. rewrite toString_six by assumption.
  unfold decimal_value. cbn [decimal_value_acc].
  rewrite !digit_value_char by (Z.div_mod_to_equations; lia).
  f_equal. Z.div_mod_to_equations. lia.
Qed.

Lemma toString_six_inj (n k : Z) :
  100000 <= n <= 999999 -> 100000 <= k <= 999999 ->
  toString n = toString k -> n = k.
Proof.
  intros Hn Hk H. apply (f_equal decimal_value) in H.
  rewrite !toString_six_value in H by assumption. congruence.
Qed.

End OtpFacts.

(** ** Rounding to binary64 *)

Module Binary64Facts.

Import Binary64.

Lemma pow2_pos (e : Z) : 0 < 2 ^ e \/ (e < 0 /\ 2 ^ e = 0).
Proof.
  destruct (Z_lt_le_dec e 0) as [H|H].
  - right. split; [exact H|]. now apply Z.pow_neg_r.
  - left. now apply Z.pow_pos_nonneg.
Qed.

Lemma pow2_double (s : Z) : 0 < s -> 2 ^ s = 2 * 2 ^ (s - 1) /\ 0 < 2 ^ (s - 1).
Proof.
  intros Hs. split.
  - replace s with (Z.succ (s - 1)) at 1 by lia. apply Z.pow_succ_r. lia.
  - apply Z.pow_pos_nonneg; lia.
Qed.

Lemma pow2_split (a b : Z) : 0 <= a <= b -> 2 ^ b = 2 ^ (b - a) * 2 ^ a.
Proof. intros H. rewrite <- Z.pow_add_r by lia. f_equal. lia. Qed.

Lemma excess_nonneg (n : Z) : 0 <= excess n.
Proof. unfold excess. lia. Qed.

Lemma excess_lt_pow2 (n p : Z) : 0 <= n < 2 ^ p -> 53 <= p -> excess n <= p - 53.
Proof.
  intros [H0 Hp] H53. unfold excess.
  destruct (Z.eq_dec n 0) as [->|Hn]; [simpl; lia|].
  assert (Z.log2 n < p) by (apply Z.log2_lt_pow2; lia). lia.
Qed.

Lemma excess_pos_bounds (n : Z) :
  0 < excess n -> 2 ^ (excess n + 52) <= n < 2 ^ (excess n + 53).
Proof.
  unfold excess. intros H.
  assert (Hl : 52 < Z.log2 n) by lia.
  assert (Hn : 0 < n).
  { destruct (Z_lt_le_dec 0 n); [assumption|]. rewrite Z.log2_nonpos in Hl; lia. }
  replace (Z.max 0 (Z.log2 n + 1 - 53) + 52) with (Z.log2 n) by lia.
  replace (Z.max 0 (Z.log2 n + 1 - 53) + 53) with (Z.succ (Z.log2 n)) by lia.
  apply Z.log2_spec. exact Hn.
Qed.

Lemma excess_zero_small (n : Z) : 0 <= n -> excess n = 0 -> n < 2 ^ 53.
Proof.
  intros H0 H. unfold excess in H.
  destruct (Z.eq_dec n 0) as [->|Hn]; [reflexivity|].
  apply Z.log2_lt_pow2; lia.
Qed.

Section Nearest.

Variables (n s : Z).
Hypothesis Hs : 0 < s.

Let P := 2 ^ s.
Let H := 2 ^ (s - 1).

Lemma nearest_even_cases :
  exists q r, n = P * q + r /\ 0 <= r < P /\ P = 2 * H /\ 0 < H
    /\ (nearest_even n s = q /\ r <= H \/ nearest_even n s = q + 1 /\ H <= r).
Proof.
  destruct (pow2_double s Hs) as [Hd Hh]. fold P H in Hd, Hh.
  exists (n / P), (n mod P).
  split; [apply Z.div_mod; lia|]. split; [apply Z.mod_pos_bound; lia|].
  split; [exact Hd|]. split; [exact Hh|].
  unfold nearest_even. fold P H.
  destruct (Z.ltb_spec (n mod P) H); [left; lia|].
  destruct (Z.ltb_spec H (n mod P)); [right; lia|].
  destruct (Z.even (n / P)); [left|right]; lia.
Qed.

Lemma nearest_even_le (g : Z) : n < g * P + H -> nearest_even n s <= g.
Proof.
  intros Hn. destruct nearest_even_cases as [q [r [Hq [Hr [Hd [Hh [[-> Hc]|[-> Hc]]]]]]]]; nia.
Qed.

Lemma nearest_even_ge (g : Z) : g * P - H < n -> g <= nearest_even n s.
Proof.
  intros Hn. destruct nearest_even_cases as [q [r [Hq [Hr [Hd [Hh [[-> Hc]|[-> Hc]]]]]]]]; nia.
Qed.

Lemma nearest_even_error : - H <= nearest_even n s * P - n <= H.
Proof.
  destruct nearest_even_cases as [q [r [Hq [Hr [Hd [Hh [[-> Hc]|[-> Hc]]]]]]]]; nia.
Qed.

End Nearest.

Lemma round_excess_zero (n : Z) : excess n = 0 -> round n = n.
Proof. intros H. unfold round. now rewrite H. Qed.

Lemma round_excess_pos (n : Z) :
  0 < excess n -> round n = nearest_even n (excess n) * 2 ^ excess n.
Proof.
  intros H. unfold round. destruct (Z.eqb_spec (excess n) 0); [lia|reflexivity].
Qed.

(** Rounding does not cross a number of the grid it rounds to. *)
Lemma round_le (n g e : Z) :
  excess n <= e -> n <= g * 2 ^ e -> round n <= g * 2 ^ e.
Proof.
  intros He Hn. pose proof (excess_nonneg n) as H0.
  destruct (Z.eq_dec (excess n) 0) as [Hz|Hz]; [now rewrite round_excess_zero|].
  rewrite round_excess_pos by lia.
  rewrite (pow2_split (excess n) e) in * by lia.
  destruct (pow2_double (excess n)) as [Hd Hh]; [lia|].
  assert (nearest_even n (excess n) <= g * 2 ^ (e - excess n)).
  { apply nearest_even_le; [lia|]. nia. }
  nia.
Qed.

Lemma round_ge (n g e : Z) :
  excess n <= e -> g * 2 ^ e <= n -> g * 2 ^ e <= round n.
Proof.
  intros He Hn. pose proof (excess_nonneg n) as H0.
  destruct (Z.eq_dec (excess n) 0) as [Hz|Hz]; [now rewrite round_excess_zero|].
  rewrite round_excess_pos by lia.
  rewrite (pow2_split (excess n) e) in * by lia.
  destruct (pow2_double (excess n)) as [Hd Hh]; [lia|].
  assert (g * 2 ^ (e - excess n) <= nearest_even n (excess n)).
  { apply nearest_even_ge; [lia|]. nia. }
  nia.
Qed.

(** The error of a rounding is at most half the step of the grid. *)
Lemma round_error (n e : Z) :
  0 < e -> excess n <= e -> - 2 ^ (e - 1) <= round n - n <= 2 ^ (e - 1).
Proof.
  intros He Hle. pose proof (excess_nonneg n) as H0.
  assert (0 < 2 ^ (e - 1)) by (apply Z.pow_pos_nonneg; lia).
  destruct (Z.eq_dec (excess n) 0) as [Hz|Hz]; [rewrite round_excess_zero; lia|].
  rewrite round_excess_pos by lia.
  pose proof (nearest_even_error n (excess n) ltac:(lia)) as Herr.
  assert (2 ^ (excess n - 1) <= 2 ^ (e - 1)) by (apply Z.pow_le_mono_r; lia).
  lia.
Qed.


End Binary64Facts.

(** ** The one-time code in binary64 *)

Module Otp64Facts.

Import Otp Binary64 Binary64Facts Otp64.

(** The powers of two of the proofs, as multiples of [ulp]. *)
Lemma scale_ulp : scale = 9007199254740992 * ulp.
Proof. reflexivity. Qed.
Lemma ulp_pos : 0 < ulp.
Proof. reflexivity. Qed.
Lemma pow_1041 : 2 ^ 1041 = 1048576 * ulp.
Proof. reflexivity. Qed.
Lemma pow_1040 : 2 ^ 1040 = 524288 * ulp.
Proof. reflexivity. Qed.
Lemma pow_1094 : 2 ^ 1094 = 9444732965739290427392 * ulp.
Proof. reflexivity. Qed.

(** The largest binary64 number below 1 is [1 - 2^-53]. *)
Lemma random_value_max (r : Z) : random_value r -> r <= scale - ulp.
Proof.
  intros [[H0 H1] Hr]. unfold representable in Hr.
  pose proof (excess_nonneg r) as He.
  destruct (Z.eq_dec (excess r) 0) as [Hz|Hz].
  - pose proof (excess_zero_small r H0 Hz) as Hs.
    rewrite scale_ulp. pose proof ulp_pos.
    change (2 ^ 53) with 9007199254740992 in Hs. nia.
  - assert (Hle : excess r <= 1021).
    { pose proof (excess_lt_pow2 r 1074 (conj H0 H1)). lia. }
    destruct (Z.eq_dec (excess r) 1021) as [Heq|Hne].
    + rewrite round_excess_pos in Hr by lia. rewrite Heq in Hr.
      fold ulp in Hr. remember (nearest_even r 1021) as m. clear Heqm.
      rewrite scale_ulp in *. pose proof ulp_pos as Hu.
      assert (m < 9007199254740992).
      { apply (Z.mul_lt_mono_pos_r ulp); lia. }
      nia.
    + destruct (excess_pos_bounds r ltac:(lia)) as [_ Hb].
      assert (2 ^ (excess r + 53) <= 2 ^ 1073) by (apply Z.pow_le_mono_r; lia).
      assert (Hh : 2 ^ 1073 = 4503599627370496 * ulp) by reflexivity.
      rewrite scale_ulp. pose proof ulp_pos. lia.
Qed.

Section Code.

Variable r : Z.
Hypothesis Hr : random_value r.

(** The exact product [r * 900000], and the exact sum of 100000 and the
    rounded product. *)
Let product := r * 900000.
Let total := of_Z 100000 + round product.

Lemma product_bounds : 0 <= product <= 900000 * scale - 900000 * ulp.
Proof. pose proof (random_value_max r Hr). destruct Hr as [[H0 _] _]. unfold product. lia. Qed.

Lemma product_excess : excess product <= 1041.
Proof.
  pose proof product_bounds as Hx. apply (excess_lt_pow2 product 1094); [|lia].
  rewrite pow_1094. rewrite scale_ulp in Hx. pose proof ulp_pos. lia.
Qed.

Lemma rounded_product_bounds : 0 <= round product <= 900000 * scale - 2 ^ 1041.
Proof.
  pose proof product_bounds as Hx. pose proof product_excess as He.
  pose proof (excess_nonneg product) as H0. pose proof ulp_pos as Hu.
  split.
  { change 0 with (0 * 2 ^ 1041). apply round_ge; [exact He | lia]. }
  destruct (Z.eq_dec (excess product) 1041) as [Heq|Hne].
  - rewrite round_excess_pos by lia. rewrite Heq.
    assert (nearest_even product 1041 <= 7730941132800000 - 1).
    { apply nearest_even_le; [lia|]. change (1041 - 1) with 1040.
      rewrite pow_1041, pow_1040. rewrite scale_ulp in Hx. lia. }
    rewrite scale_ulp, pow_1041 in *. nia.
  - destruct (Z.eq_dec (excess product) 0) as [Hz|Hz].
    + rewrite round_excess_zero by exact Hz.
      pose proof (excess_zero_small product (proj1 Hx) Hz) as Hs.
      change (2 ^ 53) with 9007199254740992 in Hs.
      rewrite scale_ulp, pow_1041. nia.
    + destruct (excess_pos_bounds product ltac:(lia)) as [_ Hb].
      assert (Hg : round product <= 1 * 2 ^ (excess product + 53)).
      { apply round_le; lia. }
      assert (2 ^ (excess product + 53) <= 2 ^ 1093) by (apply Z.pow_le_mono_r; lia).
      assert (Hh : 2 ^ 1093 = 4722366482869645213696 * ulp) by reflexivity.
      rewrite scale_ulp, pow_1041. lia.
Qed.

Lemma sum_bounds : 100000 * scale <= total <= 1000000 * scale - 2 ^ 1041.
Proof. pose proof rounded_product_bounds. unfold total, of_Z. lia. Qed.

Lemma sum_excess : excess total <= 1041.
Proof.
  pose proof sum_bounds as Hy. apply (excess_lt_pow2 total 1094); [|lia].
  rewrite pow_1094. rewrite scale_ulp, pow_1041 in Hy. pose proof ulp_pos. lia.
Qed.


Lemma code_eq : code r = round total / scale.
Proof. reflexivity. Qed.


(** The two roundings together move the exact value by at most 2^-33. *)
Lemma total_error :
  - 2 ^ 1041 <= round total - (100000 * scale + 900000 * r) <= 2 ^ 1041.
Proof.
  pose proof (round_error product 1041 ltac:(lia) product_excess) as Hx.
  pose proof (round_error total 1041 ltac:(lia) sum_excess) as Hy.
  change (1041 - 1) with 1040 in Hx, Hy. rewrite pow_1040 in Hx, Hy.
  rewrite pow_1041. unfold total, of_Z, product in *. lia.
Qed.



End Code.


(** The evaluation over the rationals is the floor of the exact value. *)
Lemma floor_exact (r : Z) (P : positive) :
  Math_floor (100000 + Qmake r P * 900000)%Q = (100000 * Zpos P + 900000 * r) / Zpos P.
Proof.
  unfold Math_floor, Qfloor, Qplus, Qmult. cbn [Qnum Qden].
  rewrite Pos.mul_1_r, Pos.mul_1_l. f_equal. lia.
Qed.

(** It has the same range, and is the binary64 value or next to it. *)
Lemma code_close_to_exact (r : Z) :
  random_value r ->
  let exact := Math_floor (100000 + to_Q r * 900000)%Q in
  100000 <= exact <= 999999 /\ -1 <= code r - exact <= 1.
Proof.
  intros Hr exact.
  assert (Hs : 0 < scale) by reflexivity.
  assert (He : exact = (100000 * scale + 900000 * r) / scale).
  { unfold exact, to_Q. rewrite floor_exact. now rewrite Z2Pos.id by exact Hs. }
  pose proof (total_error r Hr) as Herr.
  pose proof (code_eq r) as Hc.
  assert (Hp : 2 ^ 1041 < scale) by reflexivity.
  assert (H0 : 0 < 2 ^ 1041) by reflexivity.
  destruct Hr as [[Hr0 Hr1] _].
  set (total := of_Z 100000 + round (r * 900000)) in *.
  pose proof (Z.div_mod (round total) scale ltac:(lia)) as Hd1.
  pose proof (Z.mod_pos_bound (round total) scale Hs) as Hm1.
  pose proof (Z.div_mod (100000 * scale + 900000 * r) scale ltac:(lia)) as Hd2.
  pose proof (Z.mod_pos_bound (100000 * scale + 900000 * r) scale Hs) as Hm2.
  rewrite Hc, He. nia.
Qed.

End Otp64Facts.

Module OtpClaims.

Import Otp OtpFacts.

Lemma generateOtp_eq_iff (r : Q) (k : Z) :
  (0 <= r)%Q -> (r < 1)%Q -> 100000 <= k <= 999999 ->
  (generateOtp r = toString k <->
   (inject_Z (k - 100000) / 900000 <= r /\ r < inject_Z (k - 100000 + 1) / 900000)%Q).
Proof.
  intros H0 H1 Hk. unfold generateOtp.
  pose proof (floor_range r H0 H1) as Hn.
  assert (Hfl : Math_floor (100000 + r * 900000)%Q = k <->
          (inject_Z k <= 100000 + r * 900000 /\
           100000 + r * 900000 < inject_Z (k + 1))%Q) by apply Qfloor_eq.
  assert (Hinj : toString (Math_floor (100000 + r * 900000)%Q) = toString k <->
                 Math_floor (100000 + r * 900000)%Q = k).
  { split; [now apply toString_six_inj | now intros ->]. }
  rewrite Hinj, Hfl.
  unfold Z.sub. rewrite !inject_Z_plus, inject_Z_opp.
  change (inject_Z 100000) with 100000%Q. change (inject_Z 1) with 1%Q.
  generalize (inject_Z k). intros x. unfold Qdiv.
  change (/ 900000)%Q with (1 # 900000)%Q.
  split; intros [Ha Hb]; split; lra.
Qed.




End OtpClaims.

(* ===================================================================== *)
(** * Properties of the claim verification *)
(* ===================================================================== *)

Module VerifierFacts.

Import Firestore Functions.

Section Send.

Variables (env : Env) (data : SendClaimData) (a : Auth) (st : Store).

Lemma sendClaimOTP_delivered :
  mailDelivered env = true ->
  sendClaimOTP env data {| auth := Some a |} st
  = (Return success_true, challengedStore env data a st).
Proof.
  intros Hm. unfold sendClaimOTP, try_catch, sendClaimOTP_try, bind, otps_set,
    sendMail, ret. simpl. now rewrite Hm.
Qed.

Lemma sendClaimOTP_success_delivered (st' : Store) :
  sendClaimOTP env data {| auth := Some a |} st = (Return success_true, st') ->
  mailDelivered env = true.
Proof.
  unfold sendClaimOTP, try_catch, sendClaimOTP_try, bind, otps_set,
    sendMail, ret, throw. simpl.
  destruct (mailDelivered env); [reflexivity | discriminate].
Qed.

End Send.

Section Verify.

Variables (env : Env) (data : VerifyClaimData) (a : Auth) (st : Store).

Let key : string := otpId (verify_itemId data) (uid a).

Lemma verify_try_not_found :
  otps st !! key = None ->
  verifyClaimOTP_try env data a st
  = (Throw (HttpsError not_found "OTP not found"), st).
Proof.
  intros H. unfold verifyClaimOTP_try, bind, otps_get, throw.
  fold key. now rewrite H.
Qed.

Lemma verify_try_mismatch (ch : OtpDoc) :
  otps st !! key = Some ch ->
  otp_code ch <> verify_otp data ->
  verifyClaimOTP_try env data a st
  = (Throw (HttpsError invalid_argument "Invalid OTP"), st).
Proof.
  intros H Hne. unfold verifyClaimOTP_try, bind, otps_get, throw.
  fold key. rewrite H. apply String.eqb_neq in Hne. now rewrite Hne.
Qed.

Lemma verify_try_expired (ch : OtpDoc) :
  otps st !! key = Some ch ->
  otp_code ch = verify_otp data ->
  otp_expiresAt ch < now env ->
  verifyClaimOTP_try env data a st
  = (Throw (HttpsError deadline_exceeded "OTP expired"), st).
Proof.
  intros H Heq Hexp. unfold verifyClaimOTP_try, bind, otps_get, throw.
  fold key. rewrite H. apply String.eqb_eq in Heq. rewrite Heq. simpl.
  apply Z.ltb_lt in Hexp. now rewrite Hexp.
Qed.

Lemma verify_try_success (ch : OtpDoc) (it : Item) (e : string) :
  otps st !! key = Some ch ->
  otp_code ch = verify_otp data ->
  now env <= otp_expiresAt ch ->
  items st !! verify_itemId data = Some it ->
  token_email a = Some e ->
  verifyClaimOTP_try env data a st
  = (Return success_true, claimedStore env (verify_itemId data) a it st).
Proof.
  intros H Heq Hexp Hit He.
  unfold verifyClaimOTP_try, claimedStore, claimUpdate, bind, otps_get, throw,
    items_update, otps_delete, ret.
  fold key. rewrite H, He. apply String.eqb_eq in Heq. rewrite Heq. simpl.
  destruct (Z.ltb_spec (otp_expiresAt ch) (now env)); [lia|].
  now rewrite Hit.
Qed.

(** A token without an email: the [update] is refused before it reaches
    the store, whether or not the item exists. *)
Lemma verify_try_no_email (ch : OtpDoc) :
  otps st !! key = Some ch ->
  otp_code ch = verify_otp data ->
  now env <= otp_expiresAt ch ->
  token_email a = None ->
  verifyClaimOTP_try env data a st = (Throw undefined_field_error, st).
Proof.
  intros H Heq Hexp He.
  unfold verifyClaimOTP_try, claimUpdate, bind, otps_get, throw.
  fold key. rewrite H, He. apply String.eqb_eq in Heq. rewrite Heq. simpl.
  destruct (Z.ltb_spec (otp_expiresAt ch) (now env)); [lia|reflexivity].
Qed.

(** The item is missing: the [update] fails and nothing is written. *)
Lemma verify_try_no_item (ch : OtpDoc) :
  otps st !! key = Some ch ->
  otp_code ch = verify_otp data ->
  now env <= otp_expiresAt ch ->
  items st !! verify_itemId data = None ->
  exists e, verifyClaimOTP_try env data a st = (Throw e, st).
Proof.
  intros H Heq Hexp Hit.
  unfold verifyClaimOTP_try, claimUpdate, bind, otps_get, throw, items_update.
  fold key. rewrite H. apply String.eqb_eq in Heq. rewrite Heq. simpl.
  destruct (Z.ltb_spec (otp_expiresAt ch) (now env)); [lia|].
  destruct (token_email a); [rewrite Hit|]; eauto.
Qed.

(** Whatever the [try] block throws, the caller receives the same
    [internal] error; the store is the one the block left. *)
Lemma verify_catch (e : exn) (st' : Store) :
  verifyClaimOTP_try env data a st = (Throw e, st') ->
  verifyClaimOTP env data {| auth := Some a |} st = (Throw verify_internal_error, st').
Proof.
  intros H. unfold verifyClaimOTP, try_catch, throw. simpl. now rewrite H.
Qed.

Lemma verify_return (st' : Store) :
  verifyClaimOTP_try env data a st = (Return success_true, st') ->
  verifyClaimOTP env data {| auth := Some a |} st = (Return success_true, st').
Proof.
  intros H. unfold verifyClaimOTP, try_catch. simpl. now rewrite H.
Qed.

End Verify.

End VerifierFacts.

(** ** The claims on the claim verification *)

Module VerifierClaims.

Import Firestore Functions VerifierFacts Examples.

(** C3. The three causes are thrown inside the [try] block as distinct
    errors ([not-found], [invalid-argument], [deadline-exceeded]), but
    the [catch] clause replaces each by the same [internal] error: a call
    without a challenge, a call with a wrong code and a call after expiry
    all return [HttpsError internal "Failed to verify OTP"]. *)
Theorem verify_errors_collapse :
  (verifyClaimOTP_try (at_time 2000) (submit "482913") alice (storeOf phone ∅)
   = (Throw (HttpsError not_found "OTP not found"), storeOf phone ∅)
   /\ verifyClaimOTP (at_time 2000) (submit "482913") asAlice (storeOf phone ∅)
      = (Throw (HttpsError internal "Failed to verify OTP"), storeOf phone ∅))
  /\ (verifyClaimOTP_try (at_time 2000) (submit "482914") alice challenged
      = (Throw (HttpsError invalid_argument "Invalid OTP"), challenged)
      /\ verifyClaimOTP (at_time 2000) (submit "482914") asAlice challenged
         = (Throw (HttpsError internal "Failed to verify OTP"), challenged))
  /\ (verifyClaimOTP_try (at_time 700000) (submit "482913") alice challenged
      = (Throw (HttpsError deadline_exceeded "OTP expired"), challenged)
      /\ verifyClaimOTP (at_time 700000) (submit "482913") asAlice challenged
         = (Throw (HttpsError internal "Failed to verify OTP"), challenged)).
Proof.
  assert (H1 : verifyClaimOTP_try (at_time 2000) (submit "482913") alice (storeOf phone ∅)
               = (Throw (HttpsError not_found "OTP not found"), storeOf phone ∅)).
  { apply verify_try_not_found. reflexivity. }
  assert (H2 : verifyClaimOTP_try (at_time 2000) (submit "482914") alice challenged
               = (Throw (HttpsError invalid_argument "Invalid OTP"), challenged)).
  { apply (verify_try_mismatch _ _ _ _ (challenge "482913" 601000));
      [reflexivity | discriminate]. }
  assert (H3 : verifyClaimOTP_try (at_time 700000) (submit "482913") alice challenged
               = (Throw (HttpsError deadline_exceeded "OTP expired"), challenged)).
  { apply (verify_try_expired _ _ _ _ (challenge "482913" 601000));
      [reflexivity | reflexivity | simpl; lia]. }
  split; [|split]; (split; [assumption|]).
  - exact (verify_catch _ _ _ _ _ _ H1).
  - exact (verify_catch _ _ _ _ _ _ H2).
  - exact (verify_catch _ _ _ _ _ _ H3).
Qed.


(** A wrong code leaves the store as it was, whatever the challenge. *)
Lemma verify_mismatch_unchanged (env : Env) (data : VerifyClaimData) (a : Auth)
    (st : Store) (ch : OtpDoc) :
  otps st !! otpId (verify_itemId data) (uid a) = Some ch ->
  otp_code ch <> verify_otp data ->
  verifyClaimOTP env data {| auth := Some a |} st = (Throw verify_internal_error, st).
Proof.
  intros H Hne. eapply verify_catch. now apply (verify_try_mismatch _ _ _ _ ch).
Qed.

(** C8. With the code 482913 stored and unexpired, submitting 482914
    makes the [try] block throw [invalid-argument] and leaves the store
    unchanged (item and challenge as they were), and the stored code is
    still accepted afterwards; but what the caller receives is the
    [internal] error of the [catch] clause, not the mismatch. *)
Theorem verify_mismatch_surfaces_internal :
  verifyClaimOTP_try (at_time 2000) (submit "482914") alice challenged
  = (Throw (HttpsError invalid_argument "Invalid OTP"), challenged)
  /\ verifyClaimOTP (at_time 2000) (submit "482914") asAlice challenged
     = (Throw (HttpsError internal "Failed to verify OTP"), challenged)
  /\ fst (verifyClaimOTP (at_time 3000) (submit "482913") asAlice
            (snd (verifyClaimOTP (at_time 2000) (submit "482914") asAlice challenged)))
     = Return success_true.
Proof.
  assert (H : verifyClaimOTP_try (at_time 2000) (submit "482914") alice challenged
              = (Throw (HttpsError invalid_argument "Invalid OTP"), challenged)).
  { apply (verify_try_mismatch _ _ _ _ (challenge "482913" 601000));
      [reflexivity | discriminate]. }
  split; [exact H|].
  pose proof (verify_catch _ _ _ _ _ _ H) as Hc.
  split; [exact Hc|].
  unfold asAlice. rewrite Hc. simpl snd.
  erewrite verify_return; [reflexivity|].
  apply (verify_try_success _ _ _ _ (challenge "482913" 601000) phone
           "alice@campus.edu");
    [reflexivity | reflexivity | simpl; lia | reflexivity | reflexivity].
Qed.

(** C4, as stated, fails: with an expired challenge and a wrong code the
    error thrown is [invalid-argument], because the code is compared
    before the expiry is looked at; the caller does not receive
    [deadline-exceeded]. *)
Lemma expired_wrong_code_is_mismatch :
  otps challenged !! otpId "item1" "alice" = Some (challenge "482913" 601000)
  /\ otp_expiresAt (challenge "482913" 601000) < now (at_time 700000)
  /\ verifyClaimOTP_try (at_time 700000) (submit "000000") alice challenged
     = (Throw (HttpsError invalid_argument "Invalid OTP"), challenged)
  /\ (forall msg,
        fst (verifyClaimOTP (at_time 700000) (submit "000000") asAlice challenged)
        <> Throw (HttpsError deadline_exceeded msg)).
Proof.
  split; [reflexivity|]. split; [simpl; lia|].
  assert (H : verifyClaimOTP_try (at_time 700000) (submit "000000") alice challenged
              = (Throw (HttpsError invalid_argument "Invalid OTP"), challenged)).
  { apply (verify_try_mismatch _ _ _ _ (challenge "482913" 601000));
      [reflexivity | discriminate]. }
  split; [exact H|].
  intros msg. unfold asAlice. rewrite (verify_catch _ _ _ _ _ _ H). simpl. discriminate.
Qed.

(** C4, amended. When the challenge of the pair has expired, [verify]
    fails for every submitted code and leaves the whole store as it was
    (the challenge is still there, the item is untouched). The error
    thrown is [deadline-exceeded] when the submitted code is the stored
    one, and [invalid-argument] otherwise, since the comparison of the
    codes comes first. *)
Theorem verify_expired_fails (env : Env) (data : VerifyClaimData) (a : Auth)
    (st : Store) (ch : OtpDoc) :
  otps st !! otpId (verify_itemId data) (uid a) = Some ch ->
  otp_expiresAt ch < now env ->
  (exists e, verifyClaimOTP env data {| auth := Some a |} st = (Throw e, st))
  /\ (otp_code ch = verify_otp data ->
      verifyClaimOTP_try env data a st
      = (Throw (HttpsError deadline_exceeded "OTP expired"), st))
  /\ (otp_code ch <> verify_otp data ->
      verifyClaimOTP_try env data a st
      = (Throw (HttpsError invalid_argument "Invalid OTP"), st))
  /\ otps (snd (verifyClaimOTP env data {| auth := Some a |} st))
       !! otpId (verify_itemId data) (uid a) = Some ch
  /\ items (snd (verifyClaimOTP env data {| auth := Some a |} st)) = items st.
Proof.
  intros H Hexp.
  assert (Hfail : exists e,
            verifyClaimOTP env data {| auth := Some a |} st = (Throw e, st)).
  { exists verify_internal_error.
    destruct (String.eqb_spec (otp_code ch) (verify_otp data)) as [Heq|Hne].
    - eapply verify_catch. now apply (verify_try_expired _ _ _ _ ch).
    - now apply (verify_mismatch_unchanged _ _ _ _ ch). }
  split; [exact Hfail|]. split; [|split; [|split]].
  - intros Heq. now apply (verify_try_expired _ _ _ _ ch).
  - intros Hne. now apply (verify_try_mismatch _ _ _ _ ch).
  - destruct Hfail as [e ->]. exact H.
  - destruct Hfail as [e ->]. reflexivity.
Qed.

(** The matching code 482913, submitted after the expiry at 601000. *)
Lemma verify_expired_fails_witness :
  otp_expiresAt (challenge "482913" 601000) < now (at_time 700000)
  /\ verifyClaimOTP_try (at_time 700000) (submit "482913") alice challenged
     = (Throw (HttpsError deadline_exceeded "OTP expired"), challenged)
  /\ items (snd (verifyClaimOTP (at_time 700000) (submit "482913") asAlice challenged))
     = items challenged.
Proof.
  assert (Hexp : otp_expiresAt (challenge "482913" 601000) < now (at_time 700000))
    by (simpl; lia).
  pose proof (verify_expired_fails (at_time 700000) (submit "482913") alice
                challenged (challenge "482913" 601000) eq_refl Hexp) as H.
  split; [exact Hexp|]. split.
  - exact (proj1 (proj2 H) eq_refl).
  - exact (proj2 (proj2 (proj2 (proj2 H)))).
Defined.


Lemma items_challengedStore (env : Env) (data : SendClaimData) (a : Auth) (st : Store) :
  items (challengedStore env data a st) = items st.
Proof. reflexivity. Qed.

(** C2, as stated, fails: for an item that Bob has already claimed,
    Alice's [sendClaimOTP] succeeds and stores a challenge, and her
    [verifyClaimOTP] with the stored code succeeds and replaces Bob by
    Alice as the claimant. *)
Lemma claimed_item_not_rejected :
  status phoneClaimed = claimed
  /\ fst (sendClaimOTP (at_time 1000) (askFor "item1") asAlice (storeOf phoneClaimed ∅))
     = Return success_true
  /\ otps (storeOf phoneClaimed ∅) !! "item1_alice" = None
  /\ otp_code <$> (otps (snd (sendClaimOTP (at_time 1000) (askFor "item1") asAlice
                               (storeOf phoneClaimed ∅))) !! "item1_alice")
     = Some "550000"
  /\ fst (verifyClaimOTP (at_time 2000) (submit "482913") asAlice
            (storeOf phoneClaimed {[ "item1_alice" := challenge "482913" 601000 ]}))
     = Return success_true
  /\ claimantId <$> (items (snd (verifyClaimOTP (at_time 2000) (submit "482913") asAlice
            (storeOf phoneClaimed {[ "item1_alice" := challenge "482913" 601000 ]})))
          !! "item1")
     = Some (Some "alice").
Proof.
  split; [reflexivity|]. split; [reflexivity|]. split; [reflexivity|].
  split; [vm_compute; reflexivity|].
  split; [reflexivity|]. vm_compute. reflexivity.
Qed.

(** C2, amended. For an item whose status is not [unclaimed] neither
    [sendClaimOTP] nor [verifyClaimOTP] reads the status: each returns
    what it would return were the item unclaimed. With the mail delivered
    [sendClaimOTP] succeeds and stores the challenge; [verifyClaimOTP]
    with the stored code of an unexpired challenge, called by a caller
    whose token carries an email, succeeds, marks the item claimed by the
    caller and deletes the challenge. *)
Theorem status_not_consulted (env : Env) (itemId : string) (a : Auth)
    (st : Store) (it : Item) :
  items st !! itemId = Some it ->
  status it <> unclaimed ->
  let st_unclaimed :=
    set_items (fun m => <[itemId := withStatus unclaimed it]> m) st in
  (forall email,
     fst (sendClaimOTP env {| send_itemId := itemId; send_userEmail := email |}
            {| auth := Some a |} st)
     = fst (sendClaimOTP env {| send_itemId := itemId; send_userEmail := email |}
              {| auth := Some a |} st_unclaimed))
  /\ (forall code,
        fst (verifyClaimOTP env {| verify_itemId := itemId; verify_otp := code |}
               {| auth := Some a |} st)
        = fst (verifyClaimOTP env {| verify_itemId := itemId; verify_otp := code |}
                 {| auth := Some a |} st_unclaimed))
  /\ (forall email,
        mailDelivered env = true ->
        sendClaimOTP env {| send_itemId := itemId; send_userEmail := email |}
          {| auth := Some a |} st
        = (Return success_true,
           challengedStore env {| send_itemId := itemId; send_userEmail := email |} a st))
  /\ (forall code ch e,
        otps st !! otpId itemId (uid a) = Some ch ->
        otp_code ch = code ->
        now env <= otp_expiresAt ch ->
        token_email a = Some e ->
        verifyClaimOTP env {| verify_itemId := itemId; verify_otp := code |}
          {| auth := Some a |} st
        = (Return success_true, claimedStore env itemId a it st)).
Proof.
  intros Hit Hst st_u. split; [|split; [|split]].
  - intros email. unfold sendClaimOTP, try_catch, sendClaimOTP_try, bind,
      otps_set, sendMail, ret, throw. simpl.
    now destruct (mailDelivered env).
  - intros code. unfold verifyClaimOTP, try_catch, verifyClaimOTP_try,
      claimUpdate, bind, otps_get, items_update, otps_delete, ret, throw. simpl.
    destruct (otps st !! otpId itemId (uid a)) as [ch|]; [|reflexivity].
    destruct (negb (otp_code ch =? code)%string); [reflexivity|].
    destruct (otp_expiresAt ch <? now env); [reflexivity|].
    destruct (token_email a) as [e|]; [|reflexivity].
    assert (Hu : items st_u !! itemId = Some (withStatus unclaimed it))
      by apply lookup_insert_eq.
    rewrite Hit, Hu. reflexivity.
  - intros email Hm. now apply sendClaimOTP_delivered.
  - intros code ch e Hch Hcode Hexp He. apply verify_return.
    now apply (verify_try_success env
                 {| verify_itemId := itemId; verify_otp := code |} a st ch it e).
Qed.

(** Alice claims the item Bob has claimed. *)
Lemma status_not_consulted_witness :
  status phoneClaimed <> unclaimed
  /\ verifyClaimOTP (at_time 2000) (submit "482913") asAlice
       (storeOf phoneClaimed {[ "item1_alice" := challenge "482913" 601000 ]})
     = (Return success_true,
        claimedStore (at_time 2000) "item1" alice phoneClaimed
          (storeOf phoneClaimed {[ "item1_alice" := challenge "482913" 601000 ]})).
Proof.
  assert (Hst : status phoneClaimed <> unclaimed) by discriminate.
  split; [exact Hst|].
  refine (proj2 (proj2 (proj2
    (status_not_consulted (at_time 2000) "item1" alice
       (storeOf phoneClaimed {[ "item1_alice" := challenge "482913" 601000 ]})
       phoneClaimed eq_refl Hst))) "482913" (challenge "482913" 601000)
    "alice@campus.edu" eq_refl eq_refl _ eq_refl).
  simpl. lia.
Defined.

(** C5. The claim does not hold of a claimant who signed in with a phone
    number. Carol's token carries no email; she asks for a code for the
    unclaimed item at time 1000, giving an address in the request, and
    [sendClaimOTP] succeeds and stores the code 550000. At time 2000 she
    submits 550000: the [update] is refused because [claimantEmail] is
    [undefined], the [catch] clause turns this into the [internal] error,
    and nothing is changed: the item is still unclaimed and the challenge
    is still stored. The same two calls by Alice, whose token carries an
    email, end in success. *)
Theorem issue_then_verify_without_email :
  let st := storeOf phone ∅ in
  let st1 := challengedStore (at_time 1000) carolAsks carol st in
  items st !! "item1" = Some phone
  /\ token_email carol = None
  /\ sendClaimOTP (at_time 1000) carolAsks asCarol st = (Return success_true, st1)
  /\ otps st1 !! otpId "item1" "carol"
     = Some (newOtpDoc (at_time 1000) "550000" "item1" "carol")
  /\ now (at_time 2000) <= now (at_time 1000) + 10 * 60 * 1000
  /\ verifyClaimOTP_try (at_time 2000) (submit "550000") carol st1
     = (Throw undefined_field_error, st1)
  /\ verifyClaimOTP (at_time 2000) (submit "550000") asCarol st1
     = (Throw verify_internal_error, st1)
  /\ items st1 !! "item1" = Some phone
  /\ status phone = unclaimed
  /\ fst (verifyClaimOTP (at_time 2000) (submit "550000") asAlice
            (snd (sendClaimOTP (at_time 1000) (askFor "item1") asAlice st)))
     = Return success_true.
Proof.
  intros st st1.
  assert (Hsend : sendClaimOTP (at_time 1000) carolAsks asCarol st
                  = (Return success_true, st1)).
  { apply sendClaimOTP_delivered. reflexivity. }
  assert (Hch : otps st1 !! otpId "item1" "carol"
                = Some (newOtpDoc (at_time 1000) "550000" "item1" "carol")).
  { vm_compute. reflexivity. }
  assert (Htry : verifyClaimOTP_try (at_time 2000) (submit "550000") carol st1
                 = (Throw undefined_field_error, st1)).
  { apply (verify_try_no_email _ _ _ _
             (newOtpDoc (at_time 1000) "550000" "item1" "carol"));
      [exact Hch | reflexivity | simpl; lia | reflexivity]. }
  split; [reflexivity|]. split; [reflexivity|]. split; [exact Hsend|].
  split; [exact Hch|]. split; [simpl; lia|]. split; [exact Htry|].
  split; [exact (verify_catch _ _ _ _ _ _ Htry)|].
  split; [reflexivity|]. split; [reflexivity|].
  vm_compute. reflexivity.
Qed.

End VerifierClaims.

(* ===================================================================== *)
(** * Properties of the claim page *)
(* ===================================================================== *)

Module ClaimPageClaims.

Import ClaimPage.




End ClaimPageClaims.

(* ===================================================================== *)
(** * Further properties of the Cloud Functions *)
(* ===================================================================== *)

Module VerifierExtras.

Import Firestore Functions VerifierFacts Examples Labeling.

(** A wrong code: the [catch] clause answers and the store is unchanged. *)
Lemma verify_mismatch_unchanged_aux (env : Env) (data : VerifyClaimData) (a : Auth)
    (st : Store) (ch : OtpDoc) :
  otps st !! otpId (verify_itemId data) (uid a) = Some ch ->
  otp_code ch <> verify_otp data ->
  verifyClaimOTP env data {| auth := Some a |} st = (Throw verify_internal_error, st).
Proof.
  intros H Hne. eapply verify_catch. now apply (verify_try_mismatch _ _ _ _ ch).
Qed.


(** When [verifyClaimOTP] by an authenticated caller succeeds, and what
    it does otherwise. *)
Lemma verify_outcome (env : Env) (data : VerifyClaimData) (a : Auth) (st : Store) :
  (fst (verifyClaimOTP env data {| auth := Some a |} st) = Return success_true
   <-> exists ch it e,
         otps st !! otpId (verify_itemId data) (uid a) = Some ch
         /\ otp_code ch = verify_otp data
         /\ now env <= otp_expiresAt ch
         /\ items st !! verify_itemId data = Some it
         /\ token_email a = Some e)
  /\ (fst (verifyClaimOTP env data {| auth := Some a |} st) = Return success_true
      \/ verifyClaimOTP env data {| auth := Some a |} st
         = (Throw verify_internal_error, st)).
Proof.
  destruct (otps st !! otpId (verify_itemId data) (uid a)) as [ch|] eqn:Hch.
  2:{ pose proof (verify_catch _ _ _ _ _ _ (verify_try_not_found env data a st Hch)) as H.
      rewrite H. simpl. split; [|now right].
      split; [discriminate|]. intros [ch [it [e [Hc _]]]]. discriminate. }
  destruct (String.eqb_spec (otp_code ch) (verify_otp data)) as [Heq|Hne].
  2:{ pose proof (verify_mismatch_unchanged_aux env data a st ch Hch Hne) as H.
      rewrite H. simpl. split; [|now right].
      split; [discriminate|]. intros [ch' [it [e [Hc [He _]]]]]. congruence. }
  destruct (Z_lt_le_dec (otp_expiresAt ch) (now env)) as [Hexp|Hexp].
  { pose proof (verify_catch _ _ _ _ _ _ (verify_try_expired env data a st ch Hch Heq Hexp)) as H.
    rewrite H. simpl. split; [|now right].
    split; [discriminate|]. intros [ch' [it [e [Hc [_ [Ht _]]]]]].
    assert (ch' = ch) by congruence. subst. lia. }
  destruct (token_email a) as [e|] eqn:He.
  2:{ pose proof (verify_catch _ _ _ _ _ _
                    (verify_try_no_email env data a st ch Hch Heq Hexp He)) as H.
      rewrite H. simpl. split; [|now right].
      split; [discriminate|]. intros [ch' [it [e [_ [_ [_ [_ Hi]]]]]]]. discriminate. }
  destruct (items st !! verify_itemId data) as [it|] eqn:Hit.
  - pose proof (verify_return _ _ _ _ _
      (verify_try_success env data a st ch it e Hch Heq Hexp Hit He)) as H.
    rewrite H. simpl. split; [|now left].
    split; [|reflexivity]. intros _. now exists ch, it, e.
  - destruct (verify_try_no_item env data a st ch Hch Heq Hexp Hit) as [x Hx].
    pose proof (verify_catch _ _ _ _ _ _ Hx) as H.
    rewrite H. simpl. split; [|now right].
    split; [discriminate|]. intros [ch' [it [e' [_ [_ [_ [Hi _]]]]]]]. discriminate.
Qed.

(** X2. [verifyClaimOTP] by an authenticated caller succeeds exactly when
    a challenge is stored for the pair, its code is the submitted one, the
    time of the call is not after its [expiresAt], the item exists, and
    the caller's token carries an email. In every other case the caller
    gets the [internal] error and the store is exactly as before the
    call; so it is, whatever is stored and submitted, for a caller whose
    token carries no email. *)
Theorem verify_succeeds_iff (env : Env) (data : VerifyClaimData) (a : Auth) (st : Store) :
  (fst (verifyClaimOTP env data {| auth := Some a |} st) = Return success_true
   <-> exists ch it e,
         otps st !! otpId (verify_itemId data) (uid a) = Some ch
         /\ otp_code ch = verify_otp data
         /\ now env <= otp_expiresAt ch
         /\ items st !! verify_itemId data = Some it
         /\ token_email a = Some e)
  /\ (fst (verifyClaimOTP env data {| auth := Some a |} st) = Return success_true
      \/ verifyClaimOTP env data {| auth := Some a |} st
         = (Throw verify_internal_error, st))
  /\ (token_email a = None ->
      verifyClaimOTP env data {| auth := Some a |} st
      = (Throw verify_internal_error, st)).
Proof.
  destruct (verify_outcome env data a st) as [Hiff Hor].
  split; [exact Hiff|]. split; [exact Hor|].
  intros He. destruct Hor as [Hok|Hfail]; [|exact Hfail].
  apply Hiff in Hok as [ch [it [e [_ [_ [_ [_ Hsome]]]]]]]. congruence.
Qed.

(** The store after [sendClaimOTP] by an authenticated caller, whether
    the mail is delivered or not. *)
Lemma sendClaimOTP_store (env : Env) (data : SendClaimData) (a : Auth) (st : Store) :
  snd (sendClaimOTP env data {| auth := Some a |} st)
  = set_outbox
      (fun l => if mailDelivered env
                then l ++ [otpMail (send_userEmail data) (Otp.generateOtp (random env))]
                else l)
      (set_otps
         (fun m => <[otpId (send_itemId data) (uid a)
                     := newOtpDoc env (Otp.generateOtp (random env))
                          (send_itemId data) (uid a)]> m)
         st).
Proof.
  unfold sendClaimOTP, try_catch, sendClaimOTP_try, bind, otps_set, sendMail,
    ret, throw. simpl.
  destruct (mailDelivered env); simpl; [reflexivity|].
  unfold set_outbox, set_otps. simpl. reflexivity.
Qed.

(** The store after [verifyClaimOTP]: unchanged, or the item claimed and
    the challenge deleted. *)
Lemma verifyClaimOTP_store (env : Env) (data : VerifyClaimData) (a : Auth) (st : Store) :
  snd (verifyClaimOTP env data {| auth := Some a |} st) = st
  \/ exists it,
       items st !! verify_itemId data = Some it
       /\ snd (verifyClaimOTP env data {| auth := Some a |} st)
          = claimedStore env (verify_itemId data) a it st.
Proof.
  destruct (verify_outcome env data a st) as [Hiff [Hok|Hfail]].
  - right. apply Hiff in Hok as [ch [it [e [Hch [Heq [Hexp [Hit He]]]]]]].
    exists it. split; [exact Hit|].
    now rewrite (verify_return _ _ _ _ _
                   (verify_try_success env data a st ch it e Hch Heq Hexp Hit He)).
  - left. now rewrite Hfail.
Qed.

(** X3. The two claim functions touch nothing but their own records.
    [sendClaimOTP] leaves the items and the notifications alone, leaves
    every challenge of another key alone, and only ever appends to the
    mails sent. [verifyClaimOTP] leaves every other item, every
    challenge of another key, the notifications and the mails alone. *)
Theorem claim_functions_frame (env : Env) (a : Auth) (st : Store)
    (sd : SendClaimData) (vd : VerifyClaimData) :
  let st_s := snd (sendClaimOTP env sd {| auth := Some a |} st) in
  let st_v := snd (verifyClaimOTP env vd {| auth := Some a |} st) in
  items st_s = items st
  /\ notifications st_s = notifications st
  /\ (exists sent, outbox st_s = outbox st ++ sent)
  /\ (forall k, k <> otpId (send_itemId sd) (uid a) -> otps st_s !! k = otps st !! k)
  /\ notifications st_v = notifications st
  /\ outbox st_v = outbox st
  /\ (forall k, k <> otpId (verify_itemId vd) (uid a) -> otps st_v !! k = otps st !! k)
  /\ (forall j, j <> verify_itemId vd -> items st_v !! j = items st !! j).
Proof.
  intros st_s st_v. unfold st_s. rewrite sendClaimOTP_store. simpl.
  split; [reflexivity|]. split; [reflexivity|]. split.
  { destruct (mailDelivered env); eexists; [reflexivity|].
    symmetry. apply app_nil_r. }
  split; [intros k Hk; now apply lookup_insert_ne|].
  unfold st_v.
  destruct (verifyClaimOTP_store env vd a st) as [->|[it [_ ->]]].
  - repeat split; reflexivity.
  - simpl. split; [reflexivity|]. split; [reflexivity|]. split.
    + intros k Hk. now apply lookup_delete_ne.
    + intros j Hj. now apply lookup_insert_ne.
Qed.

(** Another caller's challenge survives Alice's request for a code. *)
Lemma claim_functions_frame_witness :
  "item1_bob" <> otpId "item1" "alice"
  /\ otps (snd (sendClaimOTP (at_time 1000) (askFor "item1") asAlice
                  (storeOf phone {[ "item1_bob" := challenge "111111" 601000 ]})))
       !! "item1_bob"
     = Some (challenge "111111" 601000).
Proof.
  assert (Hne : "item1_bob" <> otpId "item1" "alice") by (vm_compute; discriminate).
  split; [exact Hne|].
  pose proof (claim_functions_frame (at_time 1000) alice
                (storeOf phone {[ "item1_bob" := challenge "111111" 601000 ]})
                (askFor "item1") (submit "000000")) as H.
  cbv zeta in H. destruct H as [_ [_ [_ [H _]]]].
  etransitivity; [exact (H "item1_bob" Hne) | reflexivity].
Defined.

(** X4. When the mail is not delivered, [sendClaimOTP] answers with the
    [internal] error and sends nothing, but the challenge it wrote before
    the mail stays in the store: for an existing item and a caller whose
    token carries an email, the code nobody received is accepted by a
    later [verifyClaimOTP], which claims the item. *)
Theorem undelivered_challenge_stays (env : Env) (data : SendClaimData) (a : Auth)
    (st : Store) :
  mailDelivered env = false ->
  let st1 := snd (sendClaimOTP env data {| auth := Some a |} st) in
  fst (sendClaimOTP env data {| auth := Some a |} st)
  = Throw (HttpsError internal "Failed to send OTP")
  /\ outbox st1 = outbox st
  /\ otps st1 !! otpId (send_itemId data) (uid a)
     = Some (newOtpDoc env (Otp.generateOtp (random env)) (send_itemId data) (uid a))
  /\ (forall env2 it e,
        items st !! send_itemId data = Some it ->
        now env2 <= now env + 10 * 60 * 1000 ->
        token_email a = Some e ->
        verifyClaimOTP env2
          {| verify_itemId := send_itemId data;
             verify_otp := Otp.generateOtp (random env) |}
          {| auth := Some a |} st1
        = (Return success_true, claimedStore env2 (send_itemId data) a it st1)).
Proof.
  intros Hm st1.
  assert (Hst1 : st1 = set_otps
            (fun m => <[otpId (send_itemId data) (uid a)
                        := newOtpDoc env (Otp.generateOtp (random env))
                             (send_itemId data) (uid a)]> m) st).
  { unfold st1. rewrite sendClaimOTP_store, Hm. now destruct st. }
  split.
  { unfold sendClaimOTP, try_catch, sendClaimOTP_try, bind, otps_set, sendMail,
      ret, throw. simpl. now rewrite Hm. }
  rewrite Hst1. split; [reflexivity|]. split; [apply lookup_insert_eq|].
  intros env2 it e Hit Hnow He.
  apply verify_return.
  apply (verify_try_success env2
           {| verify_itemId := send_itemId data;
              verify_otp := Otp.generateOtp (random env) |} a _
           (newOtpDoc env (Otp.generateOtp (random env)) (send_itemId data) (uid a))
           it e);
    [apply lookup_insert_eq | reflexivity | exact Hnow | exact Hit | exact He].
Qed.

(** The mail to Alice is lost; her code 550000 is accepted all the same. *)
Lemma undelivered_challenge_stays_witness :
  fst (verifyClaimOTP (at_time 2000) (submit "550000") asAlice
         (snd (sendClaimOTP {| now := 1000; random := 1 # 2; mailDelivered := false |}
                 (askFor "item1") asAlice (storeOf phone ∅))))
  = Return success_true.
Proof.
  pose proof (undelivered_challenge_stays
                {| now := 1000; random := 1 # 2; mailDelivered := false |}
                (askFor "item1") alice (storeOf phone ∅) eq_refl) as H.
  cbv zeta in H. destruct H as [_ [_ [_ H]]].
  refine (f_equal fst (H (at_time 2000) phone "alice@campus.edu" eq_refl _ eq_refl)).
  simpl. lia.
Defined.

(** X5. Asking for a code again replaces the challenge of the pair: after
    the second [sendClaimOTP] the store holds only the second code, with
    an expiry counted from the second call, and the first code, when it
    differs, is no longer accepted. *)
Theorem reissue_replaces_challenge (env1 env2 : Env) (data : SendClaimData)
    (a : Auth) (st : Store) :
  let key := otpId (send_itemId data) (uid a) in
  let code1 := Otp.generateOtp (random env1) in
  let code2 := Otp.generateOtp (random env2) in
  let st2 := snd (sendClaimOTP env2 data {| auth := Some a |}
                    (snd (sendClaimOTP env1 data {| auth := Some a |} st))) in
  otps st2 = <[key := newOtpDoc env2 code2 (send_itemId data) (uid a)]> (otps st)
  /\ otps st2 !! key = Some (newOtpDoc env2 code2 (send_itemId data) (uid a))
  /\ (code1 <> code2 ->
      forall env3,
        verifyClaimOTP env3
          {| verify_itemId := send_itemId data; verify_otp := code1 |}
          {| auth := Some a |} st2
        = (Throw verify_internal_error, st2)).
Proof.
  intros key code1 code2 st2.
  assert (Hotps : otps st2
            = <[key := newOtpDoc env2 code2 (send_itemId data) (uid a)]> (otps st)).
  { unfold st2. rewrite !sendClaimOTP_store. simpl. apply insert_insert_eq. }
  split; [exact Hotps|]. split; [rewrite Hotps; apply lookup_insert_eq|].
  intros Hne env3.
  apply (verify_mismatch_unchanged_aux env3 _ a st2
           (newOtpDoc env2 code2 (send_itemId data) (uid a))).
  - simpl. fold key. rewrite Hotps. apply lookup_insert_eq.
  - simpl. congruence.
Qed.

(** Alice is sent 550000, then 325000; 550000 is refused afterwards. *)
Lemma reissue_replaces_challenge_witness :
  Otp.generateOtp (1 # 2) <> Otp.generateOtp (1 # 4)
  /\ fst (verifyClaimOTP (at_time 3000) (submit "550000") asAlice
            (snd (sendClaimOTP {| now := 2000; random := 1 # 4; mailDelivered := true |}
                    (askFor "item1") asAlice
                    (snd (sendClaimOTP (at_time 1000) (askFor "item1") asAlice
                            (storeOf phone ∅))))))
     = Throw verify_internal_error.
Proof.
  assert (Hne : Otp.generateOtp (1 # 2) <> Otp.generateOtp (1 # 4))
    by (vm_compute; discriminate).
  split; [exact Hne|].
  pose proof (reissue_replaces_challenge (at_time 1000)
                {| now := 2000; random := 1 # 4; mailDelivered := true |}
                (askFor "item1") alice (storeOf phone ∅)) as H.
  cbv zeta in H. destruct H as [_ [_ H]].
  exact (f_equal fst (H Hne (at_time 3000))).
Defined.

(** X6. A challenge is used up by the verification that succeeds: the
    same caller's next [verifyClaimOTP] for the item fails, whatever the
    code and the time, and changes nothing. *)
Theorem challenge_single_use (env : Env) (data : VerifyClaimData) (a : Auth)
    (st : Store) :
  fst (verifyClaimOTP env data {| auth := Some a |} st) = Return success_true ->
  forall env' code,
    verifyClaimOTP env' {| verify_itemId := verify_itemId data; verify_otp := code |}
      {| auth := Some a |} (snd (verifyClaimOTP env data {| auth := Some a |} st))
    = (Throw verify_internal_error, snd (verifyClaimOTP env data {| auth := Some a |} st)).
Proof.
  intros Hok env' code.
  apply (proj1 (proj1 (verify_outcome env data a st))) in Hok
    as [ch [it [e [Hch [Heq [Hexp [Hit He]]]]]]].
  rewrite (verify_return _ _ _ _ _
             (verify_try_success env data a st ch it e Hch Heq Hexp Hit He)).
  simpl snd. eapply verify_catch. apply verify_try_not_found.
  simpl. apply lookup_delete_eq.
Qed.

(** Alice submits 482913 twice. *)
Lemma challenge_single_use_witness :
  fst (verifyClaimOTP (at_time 3000) (submit "482913") asAlice
         (snd (verifyClaimOTP (at_time 2000) (submit "482913") asAlice challenged)))
  = Throw verify_internal_error.
Proof.
  exact (f_equal fst
           (challenge_single_use (at_time 2000) (submit "482913") alice challenged
              eq_refl (at_time 3000) "482913")).
Defined.

(** X7. For an existing item and a caller whose token carries an email,
    the code of a [sendClaimOTP] made at time [t] is accepted exactly at
    the times up to and including [t + 600000] milliseconds, whether or
    not the mail was delivered. *)
Theorem challenge_valid_for_ten_minutes (env1 env2 : Env) (data : SendClaimData)
    (a : Auth) (st : Store) (it : Item) (e : string) :
  items st !! send_itemId data = Some it ->
  token_email a = Some e ->
  (fst (verifyClaimOTP env2
          {| verify_itemId := send_itemId data;
             verify_otp := Otp.generateOtp (random env1) |}
          {| auth := Some a |}
          (snd (sendClaimOTP env1 data {| auth := Some a |} st)))
   = Return success_true
   <-> now env2 <= now env1 + 600000).
Proof.
  intros Hit He. rewrite (proj1 (verify_outcome _ _ _ _)).
  rewrite sendClaimOTP_store. simpl. rewrite lookup_insert_eq. split.
  - intros [ch [it' [e' [[= <-] [_ [Hexp _]]]]]]. simpl in Hexp. lia.
  - intros Hnow. eexists. exists it, e. split; [reflexivity|].
    simpl. repeat split; [lia | exact Hit | exact He].
Qed.

(** Issued at 1000: accepted at 601000, refused at 601001. *)
Lemma challenge_valid_for_ten_minutes_witness :
  fst (verifyClaimOTP (at_time 601000) (submit "550000") asAlice
         (snd (sendClaimOTP (at_time 1000) (askFor "item1") asAlice (storeOf phone ∅))))
  = Return success_true
  /\ fst (verifyClaimOTP (at_time 601001) (submit "550000") asAlice
            (snd (sendClaimOTP (at_time 1000) (askFor "item1") asAlice (storeOf phone ∅))))
     <> Return success_true.
Proof.
  pose proof (challenge_valid_for_ten_minutes (at_time 1000) (at_time 601000)
                (askFor "item1") alice (storeOf phone ∅) phone "alice@campus.edu"
                eq_refl eq_refl) as H1.
  pose proof (challenge_valid_for_ten_minutes (at_time 1000) (at_time 601001)
                (askFor "item1") alice (storeOf phone ∅) phone "alice@campus.edu"
                eq_refl eq_refl) as H2.
  split.
  - apply (proj2 H1). simpl. lia.
  - intros H. apply (proj1 H2) in H. simpl in H. lia.
Defined.

(** X8. [sendClaimOTP] does not look the item up: for an item that does
    not exist it succeeds all the same. No code can then complete the
    claim: every [verifyClaimOTP] for the pair fails and leaves the
    challenge where it is. *)
Theorem challenge_for_missing_item (env : Env) (data : SendClaimData) (a : Auth)
    (st : Store) :
  items st !! send_itemId data = None ->
  mailDelivered env = true ->
  let st1 := snd (sendClaimOTP env data {| auth := Some a |} st) in
  fst (sendClaimOTP env data {| auth := Some a |} st) = Return success_true
  /\ forall env2 code,
       verifyClaimOTP env2 {| verify_itemId := send_itemId data; verify_otp := code |}
         {| auth := Some a |} st1
       = (Throw verify_internal_error, st1).
Proof.
  intros Hit Hm st1. split.
  { now rewrite (sendClaimOTP_delivered _ _ _ _ Hm). }
  intros env2 code.
  destruct (verify_outcome env2
              {| verify_itemId := send_itemId data; verify_otp := code |} a st1)
    as [Hiff [Hok|Hfail]]; [|exact Hfail].
  apply Hiff in Hok as [ch [it [e [_ [_ [_ [Hit' _]]]]]]].
  unfold st1 in Hit'. rewrite sendClaimOTP_store in Hit'. simpl in Hit'. congruence.
Qed.

(** Alice asks for a code for an item nobody has posted. *)
Lemma challenge_for_missing_item_witness :
  fst (sendClaimOTP (at_time 1000) (askFor "ghost") asAlice (storeOf phone ∅))
  = Return success_true
  /\ fst (verifyClaimOTP (at_time 2000)
            {| verify_itemId := "ghost"; verify_otp := "550000" |} asAlice
            (snd (sendClaimOTP (at_time 1000) (askFor "ghost") asAlice (storeOf phone ∅))))
     = Throw verify_internal_error.
Proof.
  pose proof (challenge_for_missing_item (at_time 1000) (askFor "ghost") alice
                (storeOf phone ∅) eq_refl eq_refl) as H.
  cbv zeta in H. destruct H as [H1 H2]. split; [exact H1|].
  exact (f_equal fst (H2 (at_time 2000) "550000")).
Defined.

Lemma append_assoc (s t u : string) : (s +:+ t) +:+ u = s +:+ (t +:+ u).
Proof.
  induction s as [|c s IH]; [reflexivity|].
  change (String c ((s +:+ t) +:+ u) = String c (s +:+ (t +:+ u))). now rewrite IH.
Qed.

Lemma otpId_cons (c : ascii) (s u : string) :
  otpId (String c s) u = String c (otpId s u).
Proof. reflexivity. Qed.

Lemma otpId_nil (u : string) : otpId EmptyString u = String "_" u.
Proof. reflexivity. Qed.

Lemma otpId_inj (i i' u u' : string) :
  no_underscore i = true -> no_underscore i' = true ->
  otpId i u = otpId i' u' -> i = i' /\ u = u'.
Proof.
  revert i'. induction i as [|c i IH]; intros [|c' i'] Hi Hi' H.
  - rewrite !otpId_nil in H. injection H as ->. now split.
  - rewrite otpId_nil, otpId_cons in H. injection H as <- _.
    simpl in Hi'. discriminate.
  - rewrite otpId_nil, otpId_cons in H. injection H as -> _.
    simpl in Hi. discriminate.
  - rewrite !otpId_cons in H. injection H as -> H.
    simpl in Hi, Hi'. apply andb_true_iff in Hi as [_ Hi], Hi' as [_ Hi'].
    destruct (IH i' Hi Hi' H) as [-> ->]. now split.
Qed.

(** X9. The id of a challenge document joins the item id and the caller's
    uid with an underscore. When the item ids contain no underscore,
    distinct pairs get distinct documents. In general they do not: the
    pair of item [i_u] and caller [v] and the pair of item [i] and caller
    [u_v] share one document, so a code issued to [v] for the first
    item lets [u_v], when their token carries an email, claim the
    item [i]. *)
Theorem otpId_pairs (i u v : string) :
  (forall i' u', no_underscore i = true -> no_underscore i' = true ->
                 otpId i u = otpId i' u' -> i = i' /\ u = u')
  /\ otpId (i +:+ "_" +:+ u) v = otpId i (u +:+ "_" +:+ v)
  /\ (forall env env2 email e1 e2 st it,
        items st !! i = Some it ->
        now env2 <= now env + 600000 ->
        fst (verifyClaimOTP env2
               {| verify_itemId := i; verify_otp := Otp.generateOtp (random env) |}
               {| auth := Some {| uid := u +:+ "_" +:+ v; token_email := Some e2 |} |}
               (snd (sendClaimOTP env
                       {| send_itemId := i +:+ "_" +:+ u; send_userEmail := email |}
                       {| auth := Some {| uid := v; token_email := e1 |} |} st)))
        = Return success_true).
Proof.
  assert (Hshare : otpId (i +:+ "_" +:+ u) v = otpId i (u +:+ "_" +:+ v)).
  { unfold otpId. rewrite !append_assoc. reflexivity. }
  split; [intros i' u'; apply otpId_inj|]. split; [exact Hshare|].
  intros env env2 email e1 e2 st it Hit Hnow.
  apply (proj1 (verify_outcome _ _ _ _)).
  rewrite sendClaimOTP_store. simpl.
  eexists. exists it, e2. split.
  - rewrite <- Hshare. apply lookup_insert_eq.
  - simpl. repeat split; [lia | exact Hit].
Qed.

(** A code issued to [c] for the item [a_b] lets [b_c] claim the item [a]. *)
Lemma otpId_pairs_witness :
  fst (verifyClaimOTP (at_time 2000)
         {| verify_itemId := "a"; verify_otp := "550000" |}
         {| auth := Some {| uid := "b_c"; token_email := Some "bc@campus.edu" |} |}
         (snd (sendClaimOTP (at_time 1000)
                 {| send_itemId := "a_b"; send_userEmail := "c@campus.edu" |}
                 {| auth := Some {| uid := "c"; token_email := None |} |}
                 {| items := {[ "a" := phone ]}; otps := ∅;
                    notifications := []; outbox := [] |})))
  = Return success_true.
Proof.
  refine (proj2 (proj2 (otpId_pairs "a" "b" "c")) (at_time 1000) (at_time 2000)
            "c@campus.edu" None "bc@campus.edu"
            {| items := {[ "a" := phone ]}; otps := ∅;
               notifications := []; outbox := [] |} phone eq_refl _).
  simpl. lia.
Defined.

(** X27. When the item exists, [sendClaimOTP] has succeeded and the
    caller's token carries an email, a [verifyClaimOTP] by the same
    caller for the same item with the generated code, not later than
    [expiresAt], succeeds: the item gets status [claimed], the caller as
    claimant, the email of the token as the claimant's email and the time
    of the call as [claimedAt], its other fields stay, and the challenge
    of the pair is deleted. *)
Theorem issue_then_verify (env1 env2 : Env) (itemId email e : string) (a : Auth)
    (st st1 : Store) (it : Item) :
  items st !! itemId = Some it ->
  token_email a = Some e ->
  sendClaimOTP env1 {| send_itemId := itemId; send_userEmail := email |}
    {| auth := Some a |} st = (Return success_true, st1) ->
  now env2 <= now env1 + 10 * 60 * 1000 ->
  let code := Otp.generateOtp (random env1) in
  otps st1 !! otpId itemId (uid a) = Some (newOtpDoc env1 code itemId (uid a))
  /\ exists st2 it2,
       verifyClaimOTP env2 {| verify_itemId := itemId; verify_otp := code |}
         {| auth := Some a |} st1 = (Return success_true, st2)
       /\ items st2 !! itemId = Some it2
       /\ status it2 = claimed
       /\ claimantId it2 = Some (uid a)
       /\ claimantEmail it2 = Some e
       /\ claimedAt it2 = Some (now env2)
       /\ it2 = claimPatch (uid a) (Some e) (now env2) it
       /\ otps st2 !! otpId itemId (uid a) = None
       /\ (forall j, j <> itemId -> items st2 !! j = items st !! j).
Proof.
  intros Hit He Hsend Hnow code.
  pose proof (sendClaimOTP_success_delivered _ _ _ _ _ Hsend) as Hm.
  rewrite (sendClaimOTP_delivered _ _ _ _ Hm) in Hsend.
  injection Hsend as <-.
  assert (Hch : otps (challengedStore env1
                        {| send_itemId := itemId; send_userEmail := email |} a st)
                  !! otpId itemId (uid a)
                = Some (newOtpDoc env1 code itemId (uid a))).
  { simpl. apply lookup_insert_eq. }
  split; [exact Hch|].
  eexists. exists (claimPatch (uid a) (Some e) (now env2) it).
  split.
  - apply verify_return.
    apply (verify_try_success env2
             {| verify_itemId := itemId; verify_otp := code |} a _
             (newOtpDoc env1 code itemId (uid a)) it e);
      [exact Hch | reflexivity | exact Hnow | exact Hit | exact He].
  - simpl. rewrite He, lookup_insert_eq, lookup_delete_eq.
    repeat split; try reflexivity.
    intros j Hj. now apply lookup_insert_ne.
Qed.

(** Alice asks for a code at time 1000 and submits it at time 2000. *)
Lemma issue_then_verify_witness :
  exists st2 it2,
    verifyClaimOTP (at_time 2000) (submit (Otp.generateOtp (1 # 2))) asAlice
      (challengedStore (at_time 1000) (askFor "item1") alice (storeOf phone ∅))
    = (Return success_true, st2)
    /\ items st2 !! "item1" = Some it2
    /\ status it2 = claimed
    /\ claimantId it2 = Some "alice"
    /\ otps st2 !! "item1_alice" = None.
Proof.
  assert (Hnow : now (at_time 2000) <= now (at_time 1000) + 10 * 60 * 1000)
    by (simpl; lia).
  destruct (issue_then_verify (at_time 1000) (at_time 2000) "item1"
              "alice@campus.edu" "alice@campus.edu" alice (storeOf phone ∅)
              (challengedStore (at_time 1000) (askFor "item1") alice (storeOf phone ∅))
              phone eq_refl eq_refl eq_refl Hnow)
    as [_ [st2 [it2 [Hv [Hi [Hs [Hc [_ [_ [_ [Ho _]]]]]]]]]]].
  exists st2, it2. repeat split; assumption.
Defined.

End VerifierExtras.

(* ===================================================================== *)
(** * Further properties of the matcher *)
(* ===================================================================== *)

Module MatcherExtras.

Import Str StrFacts Matcher MatcherFacts SortFacts Firestore Functions Labeling Relabel.

Lemma in_snapshot (ty : ItemType) (st : Store) (d : Doc) :
  In d (snapshot ty st) <->
  items st !! doc_id d = Some (doc_data d)
  /\ type (doc_data d) = ty /\ status (doc_data d) = unclaimed.
Proof.
  unfold snapshot, items_query. simpl. rewrite in_map_iff. split.
  - intros [[k x] [<- Hin]]. apply filter_In in Hin as [Hin Hf]. simpl in *.
    apply andb_true_iff in Hf as [Ht Hs].
    apply bool_decide_eq_true in Ht, Hs.
    apply list_elem_of_In, elem_of_map_to_list in Hin. auto.
  - intros [Hl [Ht Hs]]. exists (doc_id d, doc_data d). split; [now destruct d|].
    apply filter_In. split.
    + now apply list_elem_of_In, elem_of_map_to_list.
    + simpl. apply andb_true_iff. split; now apply bool_decide_eq_true.
Qed.

(** Comparing [c / n * 100] with a threshold, in whole numbers. *)
Lemma gt_scaled (c n : nat) (t : Z) :
  n <> 0%nat ->
  (Num.gt (Num.Finite (inject_Z (Z.of_nat c) / inject_Z (Z.of_nat n) * inject_Z 100))
          (Num.of_Z t) = true
   <-> t * Z.of_nat n < 100 * Z.of_nat c).
Proof.
  intros Hn. unfold Num.of_Z. rewrite NumFacts.gt_finite.
  assert (Hy : (0 < inject_Z (Z.of_nat n))%Q).
  { change 0%Q with (inject_Z 0). rewrite <- Zlt_Qlt. lia. }
  rewrite <- (Qmult_lt_r _ _ _ Hy).
  assert (Heq : (inject_Z (Z.of_nat c) / inject_Z (Z.of_nat n) * inject_Z 100
                 * inject_Z (Z.of_nat n) == inject_Z (100 * Z.of_nat c))%Q).
  { rewrite inject_Z_mult. field. intros H. rewrite H in Hy. now apply Qlt_irrefl in Hy. }
  rewrite Heq, <- inject_Z_mult, <- Zlt_Qlt. reflexivity.
Qed.

Lemma gt_similarity (q : list string) (it : Item) (t : Z) :
  0 <= t ->
  (Num.gt (similarity q it) (Num.of_Z t) = true
   <-> t * Z.of_nat (length q) < 100 * Z.of_nat (length (commonLabels q it))).
Proof.
  intros Ht. destruct q as [|l q].
  - rewrite commonLabels_nil. simpl length. split; [|lia].
    intros H. apply (gt_threshold_common (Some []) it t Ht) in H.
    rewrite commonLabels_opt_Some, commonLabels_nil in H. discriminate.
  - rewrite similarity_nonempty by discriminate. apply gt_scaled. discriminate.
Qed.

(** X10. In whole numbers: a candidate passes the test of [findMatches]
    exactly when five times its common labels exceed three times the
    query labels, and the test of the notification exactly when they
    exceed four times the query labels. So a candidate with three of five
    labels in common is not a match, every notified candidate is also a
    match of [findMatches] for the same labels, and the score exceeds 100
    exactly when there are more common labels than query labels. *)
Theorem thresholds_in_whole_numbers (q : list string) (it : Item) :
  let c := Z.of_nat (length (commonLabels q it)) in
  let n := Z.of_nat (length q) in
  (Num.gt (similarity q it) (Num.of_Z 60) = true <-> 3 * n < 5 * c)
  /\ (Num.gt (similarity_opt (Some q) it) (Num.of_Z 80) = true <-> 4 * n < 5 * c)
  /\ (Num.gt (similarity_opt (Some q) it) (Num.of_Z 80) = true ->
      Num.gt (similarity q it) (Num.of_Z 60) = true)
  /\ (Num.gt (similarity q it) (Num.of_Z 100) = true <-> n < c).
Proof.
  intros c n. rewrite similarity_opt_Some.
  rewrite !gt_similarity by lia. fold c n. repeat split; lia.
Qed.

(** Three of five labels in common: no match; four of five: a match, but
    no notification. *)
Lemma thresholds_in_whole_numbers_witness :
  let q := ["a"; "b"; "c"; "d"; "e"] in
  Num.gt (similarity q (withLabels (Some ["a"; "b"; "c"]) Examples.phone))
         (Num.of_Z 60) = false
  /\ Num.gt (similarity q (withLabels (Some ["a"; "b"; "c"; "d"]) Examples.phone))
            (Num.of_Z 60) = true.
Proof.
  intros q. split.
  - destruct (Num.gt (similarity q (withLabels (Some ["a"; "b"; "c"]) Examples.phone))
                     (Num.of_Z 60)) eqn:E; [|reflexivity].
    apply (proj1 (thresholds_in_whole_numbers q _)) in E. simpl in E. lia.
  - apply (proj1 (thresholds_in_whole_numbers q _)). simpl. lia.
Defined.

Lemma filter_all_true {A} (f : A -> bool) (l : list A) :
  (forall x, In x l -> f x = true) -> List.filter f l = l.
Proof.
  induction l as [|x l IH]; intros H; simpl; [reflexivity|].
  rewrite (H x) by now left. f_equal. apply IH. intros y Hy. apply H. now right.
Qed.

Lemma someIncludes_self (q : list string) (l : string) :
  In l q -> someIncludes q l = true.
Proof.
  intros Hin. unfold someIncludes. apply existsb_exists.
  exists l. split; [exact Hin | apply includes_refl].
Qed.

(** X11. An item carrying exactly the query labels is a full match: all
    its labels are common, its score is 100, and it passes both the test
    of [findMatches] and the test of the notification. *)
Theorem same_labels_full_match (q : list string) (it : Item) :
  q <> [] ->
  imageLabels it = Some q ->
  commonLabels q it = q
  /\ Num.eqb (similarity q it) (Num.of_Z 100) = true
  /\ Num.gt (similarity q it) (Num.of_Z 60) = true
  /\ Num.gt (similarity_opt (Some q) it) (Num.of_Z 80) = true.
Proof.
  intros Hq Hl.
  assert (Hc : commonLabels q it = q).
  { unfold commonLabels. rewrite Hl. apply filter_all_true.
    intros l Hin. now apply someIncludes_self. }
  assert (Hn : (0 < Z.of_nat (length q))) by (destruct q; [congruence | simpl; lia]).
  split; [exact Hc|]. split.
  - rewrite similarity_nonempty by assumption. rewrite Hc.
    unfold Num.of_Z. apply NumFacts.eqb_finite. field.
    intros H.
    assert (Hy : (0 < inject_Z (Z.of_nat (length q)))%Q).
    { change 0%Q with (inject_Z 0). rewrite <- Zlt_Qlt. lia. }
    rewrite H in Hy. now apply Qlt_irrefl in Hy.
  - rewrite similarity_opt_Some. rewrite !gt_similarity by lia.
    rewrite Hc. split; lia.
Qed.

(** The phone against its own two labels. *)
Lemma same_labels_full_match_witness :
  commonLabels ["phone"; "electronics"] Examples.phone = ["phone"; "electronics"]
  /\ Num.gt (similarity ["phone"; "electronics"] Examples.phone) (Num.of_Z 60) = true.
Proof.
  assert (Hq : ["phone"; "electronics"] <> ([] : list string)) by discriminate.
  pose proof (same_labels_full_match ["phone"; "electronics"] Examples.phone Hq eq_refl)
    as [H1 [_ [H2 _]]].
  split; [exact H1 | exact H2].
Defined.

Lemma lower_char_idem (c : ascii) : lower_char (lower_char c) = lower_char c.
Proof. destruct c as [[] [] [] [] [] [] [] []]; reflexivity. Qed.

Lemma toLowerCase_idem (s : string) : toLowerCase (toLowerCase s) = toLowerCase s.
Proof.
  induction s as [|c s IH]; simpl; [reflexivity|]. now rewrite lower_char_idem, IH.
Qed.

Lemma filter_map_length {A B} (f : B -> bool) (g : A -> B) (l : list A) :
  length (List.filter f (List.map g l)) = length (List.filter (fun x => f (g x)) l).
Proof.
  induction l as [|x l IH]; simpl; [reflexivity|].
  destruct (f (g x)); simpl; now rewrite IH.
Qed.

Section Lower.

Variable lower : string -> string.
Hypothesis lower_idem : forall s, lower (lower s) = lower s.

Lemma someIncludes_lower_query (q : list string) (L : string) :
  Folded.someIncludes lower (List.map lower q) L = Folded.someIncludes lower q L.
Proof.
  unfold Folded.someIncludes. induction q as [|l q IH]; simpl; [reflexivity|].
  now rewrite lower_idem, IH.
Qed.

Lemma someIncludes_lower_label (q : list string) (L : string) :
  Folded.someIncludes lower q (lower L) = Folded.someIncludes lower q L.
Proof.
  unfold Folded.someIncludes. now rewrite lower_idem.
Qed.

End Lower.

(** X12. Matching ignores letter case on both sides. Whatever the
    lowercasing function is, as long as lowercasing twice is lowercasing
    once (so it is for [String.prototype.toLowerCase], and for its
    restriction to the letters [A] to [Z] used in [Matcher]): writing
    the query labels in lower case changes neither the common labels nor
    the score, and writing the labels of the candidate in lower case
    changes neither their number nor the score. With the lowercasing of
    [Str], the computation is the one of [Matcher]. *)
Theorem matching_ignores_case (lower : string -> string) (q : list string) (it : Item) :
  (forall s, lower (lower s) = lower s) ->
  Folded.commonLabels lower (List.map lower q) it = Folded.commonLabels lower q it
  /\ Folded.similarity lower (List.map lower q) it = Folded.similarity lower q it
  /\ length (Folded.commonLabels lower q
               (withLabels (option_map (List.map lower) (imageLabels it)) it))
     = length (Folded.commonLabels lower q it)
  /\ Folded.similarity lower q
       (withLabels (option_map (List.map lower) (imageLabels it)) it)
     = Folded.similarity lower q it
  /\ Folded.commonLabels toLowerCase q it = commonLabels q it
  /\ Folded.similarity toLowerCase q it = similarity q it.
Proof.
  intros Hidem.
  assert (H1 : Folded.commonLabels lower (List.map lower q) it
               = Folded.commonLabels lower q it).
  { unfold Folded.commonLabels. destruct (imageLabels it) as [ls|]; [|reflexivity].
    apply filter_ext. intros L. now apply someIncludes_lower_query. }
  assert (H2 : length (Folded.commonLabels lower q
                 (withLabels (option_map (List.map lower) (imageLabels it)) it))
               = length (Folded.commonLabels lower q it)).
  { unfold Folded.commonLabels. simpl. destruct (imageLabels it) as [ls|]; [|reflexivity].
    simpl. rewrite filter_map_length. f_equal. apply filter_ext.
    intros L. now apply someIncludes_lower_label. }
  split; [exact H1|]. split; [|split; [exact H2|split; [|split; reflexivity]]].
  - unfold Folded.similarity. now rewrite H1, length_map.
  - unfold Folded.similarity. now rewrite H2.
Qed.

(** The query [PHONE] finds what the query [phone] finds. *)
Lemma matching_ignores_case_witness :
  commonLabels (List.map toLowerCase ["PHONE"]) Examples.phone
  = commonLabels ["PHONE"] Examples.phone
  /\ commonLabels ["PHONE"] Examples.phone = ["phone"].
Proof.
  split; [|reflexivity].
  exact (proj1 (matching_ignores_case toLowerCase ["PHONE"] Examples.phone
                  toLowerCase_idem)).
Defined.

Import MatcherClaims.

Lemma findMatches_result (fd : FindMatchesData) (a : Auth) (st : Store) :
  findMatches fd {| auth := Some a |} st
  = (Return (findMatches_run (itemLabels fd)
               (snapshot (oppositeType (itemType fd)) st)), st).
Proof. reflexivity. Qed.

Lemma NoDup_map_inj {A B} (f : A -> B) (l : list A) :
  (forall x y, f x = f y -> x = y) -> List.NoDup l -> List.NoDup (List.map f l).
Proof.
  intros Hinj Hl. induction Hl as [|x l Hx Hl IH]; simpl; constructor; [|exact IH].
  intros Hin. apply in_map_iff in Hin as [y [Hy Hin]].
  apply Hinj in Hy as ->. contradiction.
Qed.

Lemma NoDup_snapshot (ty : ItemType) (st : Store) : List.NoDup (snapshot ty st).
Proof.
  unfold snapshot, items_query. simpl.
  apply NoDup_map_inj.
  - intros [k x] [k' x'] [= -> ->]. reflexivity.
  - apply List.NoDup_filter, NoDup_ListNoDup, NoDup_map_to_list.
Qed.

(** X13. [findMatches] reads and does not write. Its matches are exactly
    the stored items of the opposite type with status [unclaimed] whose
    similarity exceeds 60, each once, under the id of its document. The
    opposite type of [lost] is [found]; every other [itemType], whatever
    it is, searches among the lost items. *)
Theorem findMatches_candidates (fd : FindMatchesData) (a : Auth) (st : Store) :
  exists matches,
    findMatches fd {| auth := Some a |} st = (Return matches, st)
    /\ (forall m, In m matches <->
          items st !! match_id m = Some (match_item m)
          /\ type (match_item m) = oppositeType (itemType fd)
          /\ status (match_item m) = unclaimed
          /\ match_similarity m = similarity (itemLabels fd) (match_item m)
          /\ Num.gt (match_similarity m) (Num.of_Z 60) = true)
    /\ List.NoDup matches
    /\ (oppositeType (itemType fd) = found <-> itemType fd = "lost").
Proof.
  eexists. split; [apply findMatches_result|]. split; [|split].
  - intros m. rewrite in_run_collect, findMatches_collect_eq, in_map_iff. split.
    + intros [d [<- Hd]]. apply filter_In in Hd as [Hd Hgt].
      apply in_snapshot in Hd as [Hl [Ht Hs]]. simpl. auto.
    + intros [Hl [Ht [Hs [Hsim Hgt]]]].
      exists {| doc_id := match_id m; doc_data := match_item m |}. split.
      * unfold mkMatch. simpl. rewrite <- Hsim. now destruct m.
      * apply filter_In. split; [now apply in_snapshot|].
        unfold over60. simpl. now rewrite <- Hsim.
  - eapply Permutation_NoDup; [symmetry; apply sort_perm|].
    rewrite findMatches_collect_eq. apply NoDup_map_inj.
    + intros d d'. apply mkMatch_inj.
    + apply List.NoDup_filter, NoDup_snapshot.
  - unfold oppositeType. destruct (String.eqb_spec (itemType fd) "lost"); split;
      congruence.
Qed.

Lemma addAll_result (ns : list Notification) (st : Store) :
  addAll ns st
  = (Return tt, {| items := items st; otps := otps st;
                   notifications := notifications st ++ ns;
                   outbox := outbox st |}).
Proof.
  revert st. induction ns as [|n ns IH]; intros st.
  - simpl. unfold ret. rewrite app_nil_r. now destruct st.
  - simpl. unfold bind, notifications_add. rewrite IH. simpl.
    now rewrite <- app_assoc.
Qed.

Lemma NoDup_map_inj_in {A B} (f : A -> B) (l : list A) :
  (forall x y, In x l -> In y l -> f x = f y -> x = y) ->
  List.NoDup l -> List.NoDup (List.map f l).
Proof.
  intros Hinj Hl. induction Hl as [|x l Hx Hl IH]; simpl; constructor.
  - intros Hin. apply in_map_iff in Hin as [y [Hy Hin]].
    apply Hinj in Hy; [subst y; contradiction | now right | now left].
  - apply IH. intros y z Hy Hz. apply Hinj; now right.
Qed.

(** The found items a posting is notified about, in the order of the
    snapshot. *)
Lemma sendMatchNotification_result (env : Env) (itemId : string) (item : Item)
    (st : Store) :
  sendMatchNotification env itemId item st
  = (Return tt,
     {| items := items st; otps := otps st;
        notifications :=
          notifications st
          ++ List.map (matchNotification (now env) itemId)
               (match type item with
                | lost => List.filter (over80 (imageLabels item)) (snapshot found st)
                | found => []
                end);
        outbox := outbox st |}).
Proof.
  unfold sendMatchNotification. destruct (type item).
  - unfold ret. simpl. rewrite app_nil_r. now destruct st.
  - unfold bind, items_query. simpl. rewrite addAll_result.
    unfold notify_run. rewrite notify_fold. reflexivity.
Qed.

(** X14. The trigger on a new posting only ever appends notifications:
    items, challenges and mails are untouched and earlier notifications
    stay. What it appends is exactly one notification for each stored
    found item with status [unclaimed] whose similarity to the labels of
    the posting exceeds 80, and nothing else: the notifications are those
    of a duplicate-free list of exactly these documents, in the order of
    the query's snapshot, and no two of them are equal. Each is addressed
    to the user who posted the found item and names both items. A found
    posting adds nothing, and so does a posting without labels. *)
Theorem sendMatchNotification_effect (env : Env) (itemId : string) (item : Item)
    (st : Store) :
  exists docs,
    sendMatchNotification env itemId item st
    = (Return tt, {| items := items st; otps := otps st;
                     notifications :=
                       notifications st
                       ++ List.map (matchNotification (now env) itemId) docs;
                     outbox := outbox st |})
    /\ List.NoDup docs
    /\ (forall d, In d docs <->
          type item = lost
          /\ items st !! doc_id d = Some (doc_data d)
          /\ type (doc_data d) = found /\ status (doc_data d) = unclaimed
          /\ Num.gt (similarity_opt (imageLabels item) (doc_data d)) (Num.of_Z 80) = true)
    /\ List.NoDup (List.map (matchNotification (now env) itemId) docs)
    /\ length (List.map (matchNotification (now env) itemId) docs) = length docs
    /\ (type item = lost ->
        docs = List.filter (over80 (imageLabels item)) (snapshot found st))
    /\ (type item = found -> docs = [])
    /\ (imageLabels item = None -> docs = [])
    /\ (forall d,
          notif_userId (matchNotification (now env) itemId d) = userId (doc_data d)
          /\ notif_itemId (matchNotification (now env) itemId d) = doc_id d
          /\ notif_matchedItemId (matchNotification (now env) itemId d) = itemId).
Proof.
  rewrite sendMatchNotification_result.
  set (docs := match type item with
               | lost => List.filter (over80 (imageLabels item)) (snapshot found st)
               | found => []
               end).
  assert (Hin : forall d, In d docs <->
            type item = lost
            /\ items st !! doc_id d = Some (doc_data d)
            /\ type (doc_data d) = found /\ status (doc_data d) = unclaimed
            /\ Num.gt (similarity_opt (imageLabels item) (doc_data d)) (Num.of_Z 80) = true).
  { intros d. unfold docs. destruct (type item).
    - split; [intros [] | intros [? _]; discriminate].
    - rewrite filter_In, in_snapshot. unfold over80. tauto. }
  assert (Hnd : List.NoDup docs).
  { unfold docs. destruct (type item); [constructor|].
    apply List.NoDup_filter, NoDup_snapshot. }
  exists docs. split; [reflexivity|]. split; [exact Hnd|]. split; [exact Hin|].
  split; [|split; [apply length_map|split; [|split; [|split]]]].
  - apply NoDup_map_inj_in; [|exact Hnd].
    intros [id it] [id' it'] Hx Hy Heq.
    apply Hin in Hx as [_ [Hx _]], Hy as [_ [Hy _]]. simpl in Hx, Hy.
    assert (id = id') by exact (f_equal notif_itemId Heq). subst id'.
    rewrite Hx in Hy. now injection Hy as ->.
  - intros Hl. unfold docs. now rewrite Hl.
  - intros Hf. unfold docs. now rewrite Hf.
  - intros Hl. unfold docs. destruct (type item); [reflexivity|].
    apply filter_all_false. intros d. unfold over80. rewrite Hl.
    destruct (Num.gt (similarity_opt None (doc_data d)) (Num.of_Z 80)) eqn:E;
      [|reflexivity].
    apply (gt_threshold_common None _ 80) in E; [|lia].
    rewrite commonLabels_opt_None in E. discriminate.
  - intros d. repeat split.
Qed.

(** The owner of the stored phone is told once about the lost phone. *)
Lemma sendMatchNotification_effect_example :
  notifications
    (snd (sendMatchNotification (Examples.at_time 1000) "item2" Examples.lostPhone
            (Examples.storeOf Examples.phone ∅)))
  = [matchNotification 1000 "item2" {| doc_id := "item1"; doc_data := Examples.phone |}].
Proof. vm_compute. reflexivity. Qed.

End MatcherExtras.

(* ===================================================================== *)
(** * The claim verification and the matcher together *)
(* ===================================================================== *)

Module FlowExtras.

Import Matcher Firestore Functions VerifierFacts VerifierExtras MatcherExtras
  Examples Labeling.

(** X15. Once [verifyClaimOTP] has succeeded for an item, the matcher no
    longer proposes it: no later [findMatches] returns it, and no later
    posting triggers a notification about it. *)
Theorem claimed_item_not_proposed (env : Env) (data : VerifyClaimData) (a : Auth)
    (st : Store) :
  fst (verifyClaimOTP env data {| auth := Some a |} st) = Return success_true ->
  let st2 := snd (verifyClaimOTP env data {| auth := Some a |} st) in
  (forall fd a' matches,
     findMatches fd {| auth := Some a' |} st2 = (Return matches, st2) ->
     forall m, In m matches -> match_id m <> verify_itemId data)
  /\ (forall env' newId item n,
        In n (notifications (snd (sendMatchNotification env' newId item st2))) ->
        In n (notifications st2) \/ notif_itemId n <> verify_itemId data).
Proof.
  intros Hok st2.
  assert (Hst : exists it, items st2 !! verify_itemId data = Some it
                           /\ status it = claimed).
  { apply (proj1 (proj1 (verify_outcome env data a st))) in Hok
      as [ch [it [e [Hch [Heq [Hexp [Hit He]]]]]]].
    exists (claimPatch (uid a) (token_email a) (now env) it).
    split; [|reflexivity]. unfold st2.
    rewrite (verify_return _ _ _ _ _
               (verify_try_success env data a st ch it e Hch Heq Hexp Hit He)).
    simpl. apply lookup_insert_eq. }
  destruct Hst as [it [Hit Hs]].
  assert (Hsnap : forall ty d, In d (snapshot ty st2) -> doc_id d <> verify_itemId data).
  { intros ty d Hd Hid. apply in_snapshot in Hd as [Hl [_ Hst]].
    rewrite Hid, Hit in Hl. injection Hl as Heq. rewrite <- Heq in Hst. congruence. }
  split.
  - intros fd a' matches Hf m Hm.
    rewrite findMatches_result in Hf. injection Hf as <-.
    apply MatcherClaims.in_run_collect in Hm.
    rewrite MatcherClaims.findMatches_collect_eq in Hm.
    apply in_map_iff in Hm as [d [<- Hd]]. apply filter_In in Hd as [Hd _].
    exact (Hsnap _ d Hd).
  - intros env' newId item n Hn.
    rewrite sendMatchNotification_result in Hn. simpl in Hn.
    apply in_app_or in Hn as [Hn|Hn]; [now left|]. right.
    apply in_map_iff in Hn as [d [<- Hd]]. simpl.
    destruct (type item); [destruct Hd|].
    apply filter_In in Hd as [Hd _]. exact (Hsnap _ d Hd).
Qed.

(** After Alice has claimed the phone, a search for phones finds nothing. *)
Lemma claimed_item_not_proposed_witness :
  fst (findMatches {| itemLabels := ["phone"]; itemType := "lost" |} asAlice challenged)
  <> Return []
  /\ forall m,
       In m (findMatches_run ["phone"]
               (snapshot found
                  (snd (verifyClaimOTP (at_time 2000) (submit "482913") asAlice
                          challenged)))) ->
       match_id m <> "item1".
Proof.
  split; [vm_compute; discriminate|].
  pose proof (claimed_item_not_proposed (at_time 2000) (submit "482913") alice
                challenged eq_refl) as H.
  cbv zeta in H. destruct H as [H _].
  exact (H {| itemLabels := ["phone"]; itemType := "lost" |} alice _ eq_refl).
Defined.

End FlowExtras.

(* ===================================================================== *)
(** * Further properties of the claim page *)
(* ===================================================================== *)

Module ClaimPageExtras.

Import ClaimPage ClaimPageUi ItemCard.

Lemma verifyOtp_state (at_ : Z) (p : State) (st : Store) :
  fst (fst (verifyOtp at_ p st)) = p
  \/ fst (fst (verifyOtp at_ p st)) = setVerifying false p.
Proof.
  unfold verifyOtp.
  destruct (user p) as [u|]; [|now left].
  destruct (item p); [|now left].
  destruct (id p) as [d|]; [|now left].
  destruct (truthy (Some d)); [|now left].
  destruct (verifyOtp_try at_ (setVerifying true p) u d st) as [[calls|e] st'];
    now right.
Qed.

Lemma verifyOtp_update_needs_code (at_ : Z) (p : State) (st : Store) (d : string) :
  In (UpdateDoc d) (snd (fst (verifyOtp at_ p st))) ->
  otp p = generatedOtp p /\ id p = Some d.
Proof.
  unfold verifyOtp.
  destruct (user p) as [u|]; [|intros []].
  destruct (item p); [|intros []].
  destruct (id p) as [d'|]; [|intros []].
  destruct (truthy (Some d')); [|intros []].
  unfold verifyOtp_try, bind, ret, Firestore.items_update. simpl.
  destruct (String.eqb_spec (otp p) (generatedOtp p)) as [Heq|Hne].
  - destruct (items st !! d'); simpl; intros [[= ->]|H]; try (now split);
      destruct H as [H|[H|[]]]; discriminate.
  - simpl. intros [H|[]]. discriminate.
Qed.

Lemma step_code_kept (ev : Event) (pg : Page) (st : Store) :
  valid_event ev -> code_kept pg -> code_kept (fst (fst (step ev (pg, st)))).
Proof.
  intros Hev Hinv. unfold step.
  destruct (left pg); [exact Hinv|].
  destruct ev as [|r|v|at_|]; destruct (render pg) eqn:Hr; try exact Hinv.
  - unfold loadItem. destruct (truthy (id (state pg))); [|exact Hinv].
    destruct (items st !! default EmptyString (id (state pg))); exact Hinv.
  - unfold sendOtp.
    destruct (user (state pg)) as [u|]; [|exact Hinv].
    destruct (item (state pg)); [|exact Hinv].
    destruct (truthy (user_email u)); [|exact Hinv].
    intros _. simpl. destruct Hev as [H0 H1].
    exists (Otp.Math_floor (100000 + r * 900000)%Q).
    split; [now apply OtpFacts.floor_range | reflexivity].
  - destruct (claimDisabled (state pg)); [exact Hinv|].
    destruct (verifyOtp at_ (state pg) st) as [[p' calls] st'] eqn:Hv.
    pose proof (verifyOtp_state at_ (state pg) st) as Hs. rewrite Hv in Hs.
    simpl in Hs. unfold code_kept. simpl. destruct Hs as [->| ->]; exact Hinv.
  - intros H. discriminate.
Qed.

Lemma run_cons (ev : Event) (evs : list Event) (cfg : Page * Store) :
  run (ev :: evs) cfg
  = (let (cfg', calls) := step ev cfg in
     let (cfg'', calls') := run evs cfg' in (cfg'', calls ++ calls')).
Proof. reflexivity. Qed.

Lemma run_code_kept (evs : list Event) (pg : Page) (st : Store) :
  Forall valid_event evs -> code_kept pg ->
  code_kept (fst (fst (run evs (pg, st)))).
Proof.
  revert pg st. induction evs as [|ev evs IH]; intros pg st Hev Hinv; [exact Hinv|].
  inversion Hev as [|? ? Hev1 Hevs]; subst. rewrite run_cons.
  pose proof (step_code_kept ev pg st Hev1 Hinv) as H.
  destruct (step ev (pg, st)) as [[pg' st'] calls].
  specialize (IH pg' st' Hevs H).
  destruct (run evs (pg', st')) as [cfg'' calls']. exact IH.
Qed.

(** X16. Driven through its controls from the moment it is mounted, the
    claim page calls [updateDoc] only when the typed code is the
    six-digit code of the last [sendOtp]: whenever the verification form
    is shown the component holds such a code, and the equality of the two
    empty initial values never leads to a write. *)
Theorem page_writes_need_sent_code (routeId : option string) (u : option User)
    (st0 : Store) (evs : list Event) (at_ : Z) (d : string) :
  Forall valid_event evs ->
  let cfg := fst (run evs (mounted routeId u, st0)) in
  In (UpdateDoc d) (snd (step (ClickVerify at_) cfg)) ->
  six_digit_code (generatedOtp (state (fst cfg)))
  /\ otp (state (fst cfg)) = generatedOtp (state (fst cfg))
  /\ id (state (fst cfg)) = Some d.
Proof.
  intros Hev cfg Hin.
  assert (Hinv : code_kept (fst cfg)).
  { apply run_code_kept; [exact Hev|]. intros H. discriminate. }
  destruct cfg as [pg st]. simpl in *. unfold step in Hin.
  destruct (left pg); [destruct Hin|].
  unfold render in *.
  destruct (loading pg); [destruct Hin|].
  destruct (item (state pg)) as [it|]; [|destruct Hin].
  destruct (bool_decide (status it = claimed)); [destruct Hin|].
  destruct (sentOtp (state pg)) eqn:Hs; [|destruct Hin].
  destruct (claimDisabled (state pg)); [destruct Hin|].
  destruct (verifyOtp at_ (state pg) st) as [[p' calls] st'] eqn:Hv.
  simpl in Hin.
  pose proof (verifyOtp_update_needs_code at_ (state pg) st d) as H.
  rewrite Hv in H. simpl in H. destruct (H Hin) as [Heq Hid].
  split; [now apply Hinv|]. now split.
Qed.

(** Alice opens the page of the phone, asks for a code, types it in and
    clicks the Claim button. *)
Lemma page_writes_need_sent_code_witness :
  six_digit_code "550000".
Proof.
  assert (Hev : Forall valid_event [Mount; ClickSend (1 # 2); TypeOtp "550000"]).
  { repeat constructor. vm_compute. discriminate. }
  refine (proj1 (page_writes_need_sent_code (Some "item1")
            (Some {| user_uid := "alice"; user_email := Some "alice@campus.edu" |})
            (Examples.storeOf Examples.phone ∅)
            [Mount; ClickSend (1 # 2); TypeOtp "550000"] 5000 "item1" Hev _)).
  vm_compute. left. reflexivity.
Defined.

(** X17. The claim page refuses only items whose loaded status is
    [claimed]. The cards link to the claim page only for found items with
    status [unclaimed], on the search page and on the home page alike; so
    for a lost item and for an item with status [pending] no card offers
    the claim, yet the page, opened by its address, shows the claim
    form unless the item is claimed. *)
Theorem page_and_card_guards (pg : Page) (it : Item) :
  loading pg = false ->
  item (state pg) = Some it ->
  (render pg = AlreadyClaimed <-> status it = claimed)
  /\ (status it <> claimed ->
      render pg = (if sentOtp (state pg) then VerifyForm else SendForm))
  /\ (searchPageShowsClaim it = true <-> type it = found /\ status it = unclaimed)
  /\ (homePageShowsClaim it = true <-> type it = found /\ status it = unclaimed)
  /\ (type it = lost \/ status it = pending ->
      searchPageShowsClaim it = false /\ homePageShowsClaim it = false).
Proof.
  intros Hl Hi.
  assert (Hr : render pg = if bool_decide (status it = claimed) then AlreadyClaimed
                           else if sentOtp (state pg) then VerifyForm else SendForm).
  { unfold render. now rewrite Hl, Hi. }
  assert (Hs : searchPageShowsClaim it = true <-> type it = found /\ status it = unclaimed).
  { unfold searchPageShowsClaim, claimLinkShown.
    rewrite !andb_true_iff, !bool_decide_eq_true. tauto. }
  assert (Hh : homePageShowsClaim it = true <-> type it = found /\ status it = unclaimed).
  { unfold homePageShowsClaim, claimLinkShown.
    rewrite !andb_true_iff, !bool_decide_eq_true. tauto. }
  split; [|split; [|split; [exact Hs|split; [exact Hh|]]]].
  - rewrite Hr. destruct (bool_decide_reflect (status it = claimed)) as [H|H].
    + tauto.
    + split; [|contradiction]. now destruct (sentOtp (state pg)).
  - intros Hn. rewrite Hr. now rewrite bool_decide_eq_false_2.
  - intros Hor.
    assert (Hno : ~ (type it = found /\ status it = unclaimed)).
    { intros [Ht Hst]. destruct Hor as [H|H]; congruence. }
    split.
    + destruct (searchPageShowsClaim it); [exfalso; now apply Hno, Hs | reflexivity].
    + destruct (homePageShowsClaim it); [exfalso; now apply Hno, Hh | reflexivity].
Qed.

(** A pending item, opened by its address. *)
Lemma page_and_card_guards_witness :
  let it := withStatus pending Examples.phone in
  let pg := {| state := setItem it (state (mounted (Some "item1") None));
               loading := false; left := false |} in
  render pg = SendForm /\ searchPageShowsClaim it = false.
Proof.
  intros it pg.
  pose proof (page_and_card_guards pg it eq_refl eq_refl) as [_ [H1 [_ [_ H2]]]].
  split.
  - apply H1. discriminate.
  - apply H2. now right.
Defined.

Lemma verifyOtp_cases (at_ : Z) (p : State) (st : Store) :
  verifyOtp at_ p st = ((p, []), st)
  \/ exists u d,
       user p = Some u /\ id p = Some d
       /\ (verifyOtp at_ p st
           = ((setVerifying false p, [ToastError "Invalid OTP. Please try again."]), st)
           \/ (items st !! d = None
               /\ verifyOtp at_ p st
                  = ((setVerifying false p,
                      [UpdateDoc d; ConsoleError "Error verifying OTP:";
                       ToastError "Error verifying OTP"]), st))
           \/ exists doc,
                items st !! d = Some doc
                /\ verifyOtp at_ p st
                   = ((setVerifying false p,
                       [UpdateDoc d; ToastSuccess "Item claimed successfully!";
                        Navigate "/profile"]),
                      set_items
                        (fun m => <[d := Functions.claimPatch (user_uid u)
                                           (user_email u) at_ doc]> m) st)).
Proof.
  unfold verifyOtp.
  destruct (user p) as [u|]; [|now left].
  destruct (item p); [|now left].
  destruct (id p) as [d|]; [|now left].
  destruct (truthy (Some d)); [|now left].
  right. exists u, d. split; [reflexivity|]. split; [reflexivity|].
  unfold verifyOtp_try, bind, ret, Firestore.items_update. simpl.
  destruct (String.eqb (otp p) (generatedOtp p)); [|now left].
  right. destruct (items st !! d) as [doc|] eqn:Hd.
  - right. now exists doc.
  - left. now split.
Qed.

(** X18. [verifyOtp] does nothing at all without a user, a loaded item
    or a route id. When it runs, it leaves the challenges, the
    notifications, the mails and every other item alone, and of the
    state of the component it changes nothing but [verifying]; when the
    document of the item is gone, it writes nothing and reports no
    success. *)
Theorem verifyOtp_guards_and_frame (at_ : Z) (p : State) (st : Store) :
  let r := verifyOtp at_ p st in
  (user p = None \/ item p = None \/ truthy (id p) = false -> r = ((p, []), st))
  /\ (fst (fst r) = p \/ fst (fst r) = setVerifying false p)
  /\ otps (snd r) = otps st
  /\ notifications (snd r) = notifications st
  /\ outbox (snd r) = outbox st
  /\ (forall j, id p <> Some j -> items (snd r) !! j = items st !! j)
  /\ (forall d, id p = Some d -> items st !! d = None ->
        snd r = st
        /\ ~ In (ToastSuccess "Item claimed successfully!") (snd (fst r))).
Proof.
  intros r. unfold r. split; [|split; [apply verifyOtp_state|]].
  { unfold verifyOtp. intros [H|[H|H]].
    - now rewrite H.
    - rewrite H. now destruct (user p).
    - destruct (user p); [|reflexivity]. destruct (item p); [|reflexivity].
      destruct (id p) as [d|]; [|reflexivity]. now rewrite H. }
  destruct (verifyOtp_cases at_ p st)
    as [->|[u [d [Hu [Hid [->|[[Hd ->]|[doc [Hd ->]]]]]]]]]; simpl.
  - repeat split; try reflexivity. intros [].
  - repeat split; try reflexivity. intros [Hc|[]]. discriminate.
  - repeat split; try reflexivity. intros [Hc|[Hc|[Hc|[]]]]; discriminate.
  - repeat split; try reflexivity; try congruence.
    intros j Hj. apply lookup_insert_ne. congruence.
Qed.

(** The document of the item has been deleted; Alice's matching code
    writes nothing. *)
Lemma verifyOtp_guards_and_frame_witness :
  snd (verifyOtp 5000 Examples.alicePage
         {| items := ∅; otps := ∅; notifications := []; outbox := [] |})
  = {| items := ∅; otps := ∅; notifications := []; outbox := [] |}.
Proof.
  pose proof (verifyOtp_guards_and_frame 5000 Examples.alicePage
                {| items := ∅; otps := ∅; notifications := []; outbox := [] |}) as H.
  cbv zeta in H. destruct H as [_ [_ [_ [_ [_ [_ H]]]]]].
  exact (proj1 (H "item1" eq_refl eq_refl)).
Defined.

End ClaimPageExtras.

(* ===================================================================== *)
(** * Properties of the page that reports a lost item *)
(* ===================================================================== *)

Module LostItemPageExtras.

Import Matcher MatcherFacts MatcherClaims Labeling LostItemPage.

Lemma mockScore_eq (r : Q) (k : Z) :
  mockScore r = k <-> (inject_Z (k - 70) <= r * 30 /\ r * 30 < inject_Z (k - 70 + 1))%Q.
Proof.
  unfold mockScore, Otp.Math_floor. rewrite <- OtpFacts.Qfloor_eq. lia.
Qed.

Lemma mockScore_bounds (r : Q) :
  (0 <= r)%Q -> (r < 1)%Q -> 70 <= mockScore r <= 99.
Proof.
  intros H0 H1. unfold mockScore, Otp.Math_floor.
  pose proof (Qfloor_resp_le (inject_Z 0) (r * 30)%Q) as Hlo.
  rewrite Qfloor_Z in Hlo.
  pose proof (Qfloor_le (r * 30)%Q) as Hle.
  assert (Hhi : (inject_Z (Qfloor (r * 30)) < inject_Z 30)%Q).
  { eapply Qle_lt_trans; [exact Hle|]. change (inject_Z 30) with 30%Q. lra. }
  rewrite <- Zlt_Qlt in Hhi.
  assert (0 <= Qfloor (r * 30)).
  { apply Hlo. change (inject_Z 0) with 0%Q. lra. }
  lia.
Qed.

(** X19. For every value of [Math.random()] the mock score of a
    potential match is a whole number from 70 to 99, and each of these
    thirty values occurs: the score is never 100. *)
Theorem mockScore_range (r : Q) :
  (0 <= r)%Q -> (r < 1)%Q ->
  70 <= mockScore r <= 99
  /\ (forall k, 70 <= k <= 99 ->
        exists r', (0 <= r')%Q /\ (r' < 1)%Q /\ mockScore r' = k).
Proof.
  intros H0 H1. split; [now apply mockScore_bounds|].
  intros k Hk. exists (inject_Z (k - 70) / 30)%Q.
  assert (Hlo : (0 <= inject_Z (k - 70))%Q).
  { change 0%Q with (inject_Z 0). rewrite <- Zle_Qle. lia. }
  assert (Hhi : (inject_Z (k - 70) < 30)%Q).
  { change 30%Q with (inject_Z 30). rewrite <- Zlt_Qlt. lia. }
  assert (Hstep : (inject_Z (k - 70 + 1) == inject_Z (k - 70) + 1)%Q).
  { rewrite inject_Z_plus. reflexivity. }
  unfold Qdiv. change (/ 30)%Q with (1 # 30)%Q.
  split; [lra|]. split; [lra|].
  apply mockScore_eq. split; lra.
Qed.

(** The largest score, just below [r = 1]. *)
Lemma mockScore_range_witness :
  mockScore (999999 # 1000000) = 99 /\ 70 <= mockScore (1 # 2) <= 99.
Proof.
  split; [reflexivity|].
  refine (proj1 (mockScore_range (1 # 2) _ _)).
  - vm_compute. discriminate.
  - reflexivity.
Defined.

Lemma filterFound_labelled (labels : list string) (docs : list Doc) :
  (forall d, In d docs -> imageLabels (doc_data d) <> None) ->
  filterFound labels docs
  = Some (List.filter
            (fun d => (0 <? length (commonLabels labels (doc_data d)))%nat) docs).
Proof.
  induction docs as [|d docs IH]; intros H; [reflexivity|].
  simpl. unfold hasCommonLabel, commonLabels.
  destruct (imageLabels (doc_data d)) as [ls|] eqn:Hl.
  - rewrite IH by (intros d' Hd'; apply H; now right). reflexivity.
  - exfalso. apply (H d); [now left | exact Hl].
Qed.

Lemma filterFound_unlabelled (labels : list string) (docs : list Doc) (d : Doc) :
  In d docs -> imageLabels (doc_data d) = None -> filterFound labels docs = None.
Proof.
  induction docs as [|d' docs IH]; intros Hin Hl; [destruct Hin|].
  simpl. destruct Hin as [->|Hin].
  - unfold hasCommonLabel. now rewrite Hl.
  - destruct (hasCommonLabel labels (doc_data d')); [|reflexivity].
    now rewrite (IH Hin Hl).
Qed.

Lemma withScores_cons (rand : nat -> Q) (d : Doc) (docs : list Doc) :
  withScores rand (d :: docs)
  = (d, mockScore (rand 0%nat)) :: withScores (fun k => rand (S k)) docs.
Proof. reflexivity. Qed.

Lemma withScores_docs (rand : nat -> Q) (docs : list Doc) :
  List.map fst (withScores rand docs) = docs.
Proof.
  revert rand. induction docs as [|d docs IH]; intros rand; [reflexivity|].
  rewrite withScores_cons. simpl. now rewrite IH.
Qed.

Lemma withScores_score (rand : nat -> Q) (docs : list Doc) (d : Doc) (s : Z) :
  In (d, s) (withScores rand docs) -> exists k, s = mockScore (rand k).
Proof.
  revert rand. induction docs as [|d' docs IH]; intros rand Hin; [destruct Hin|].
  rewrite withScores_cons in Hin. destruct Hin as [[= _ <-]|Hin].
  - now exists 0%nat.
  - destruct (IH _ Hin) as [k ->]. now exists (S k).
Qed.

(** X20. When every unclaimed found item has labels, the potential
    matches of the lost page are the unclaimed found items with at least
    one common label, in the order of the snapshot; they include every
    item [findMatches] would return for the same labels; each carries a
    mock score from 70 to 99; without labels there is no potential
    match; and the list is shown as soon as it is not empty. *)
Theorem potential_matches_cover_matches (labels : list string) (rand : nat -> Q)
    (ui : MatchesState) (st : Store) :
  (forall d, In d (snapshot found st) -> imageLabels (doc_data d) <> None) ->
  let ui' := fst (findPotentialMatches labels rand ui st) in
  List.map fst (potentialMatches ui')
  = List.filter (fun d => (0 <? length (commonLabels labels (doc_data d)))%nat)
      (snapshot found st)
  /\ (forall m, In m (findMatches_run labels (snapshot found st)) ->
        In {| doc_id := match_id m; doc_data := match_item m |}
           (List.map fst (potentialMatches ui')))
  /\ ((forall k, (0 <= rand k)%Q /\ (rand k < 1)%Q) ->
      forall d s, In (d, s) (potentialMatches ui') -> 70 <= s <= 99)
  /\ (labels = [] -> potentialMatches ui' = [])
  /\ (potentialMatches ui' <> [] -> showMatches ui' = true).
Proof.
  intros Hl ui'.
  set (kept := List.filter
                 (fun d => (0 <? length (commonLabels labels (doc_data d)))%nat)
                 (snapshot found st)).
  assert (Hpm : potentialMatches ui' = withScores rand kept).
  { unfold ui', findPotentialMatches. rewrite (filterFound_labelled _ _ Hl).
    fold kept. now destruct (0 <? length (withScores rand kept))%nat. }
  assert (Hdocs : List.map fst (potentialMatches ui') = kept).
  { rewrite Hpm. apply withScores_docs. }
  split; [exact Hdocs|]. split; [|split; [|split]].
  - intros m Hm. rewrite Hdocs.
    apply in_run_collect in Hm. rewrite findMatches_collect_eq in Hm.
    apply in_map_iff in Hm as [d [<- Hd]]. apply filter_In in Hd as [Hd Hgt].
    simpl. apply filter_In. split; [now destruct d|].
    apply (gt_threshold_common (Some labels) (doc_data d) 60); [lia | exact Hgt].
  - intros Hr d s Hin. rewrite Hpm in Hin.
    apply withScores_score in Hin as [k ->].
    destruct (Hr k) as [H0 H1]. now apply mockScore_bounds.
  - intros ->. rewrite Hpm. unfold kept. rewrite filter_all_false; [reflexivity|].
    intros d. now rewrite commonLabels_nil.
  - intros Hne. unfold ui', findPotentialMatches in *.
    rewrite (filterFound_labelled _ _ Hl) in *. fold kept in Hne |- *.
    destruct (withScores rand kept) as [|x l]; [now simpl in Hne|reflexivity].
Qed.

(** The store with the one phone: the mock labels propose it. *)
Lemma potential_matches_cover_matches_witness :
  List.map fst
    (potentialMatches
       (fst (findPotentialMatches ["electronics"; "device"; "phone"] (fun _ => 1 # 2)
               {| potentialMatches := []; showMatches := false |}
               (Examples.storeOf Examples.phone ∅))))
  = [ {| doc_id := "item1"; doc_data := Examples.phone |} ].
Proof.
  refine (eq_trans
    (proj1 (potential_matches_cover_matches ["electronics"; "device"; "phone"]
              (fun _ => 1 # 2) {| potentialMatches := []; showMatches := false |}
              (Examples.storeOf Examples.phone ∅) _)) _).
  - intros d Hd. apply (proj1 (MatcherExtras.in_snapshot _ _ _)) in Hd as [Hd _].
    change (items (Examples.storeOf Examples.phone ∅))
      with ({[ "item1" := Examples.phone ]} : gmap string Item) in Hd.
    apply (proj1 (lookup_singleton_Some _ _ _ _)) in Hd as [_ <-]. discriminate.
  - vm_compute. reflexivity.
Defined.

(** X21. One unclaimed found item without labels is enough for the lost
    page to show no potential match at all: the error is swallowed and
    the state is left as it was. [findMatches] on the same store skips
    such an item and still returns every other match. *)
Theorem unlabelled_item_hides_matches (labels : list string) (rand : nat -> Q)
    (ui : MatchesState) (st : Store) (d : Doc) :
  In d (snapshot found st) ->
  imageLabels (doc_data d) = None ->
  findPotentialMatches labels rand ui st = (ui, [ConsoleErrorFinding])
  /\ (forall m, In m (findMatches_run labels (snapshot found st)) <->
        exists d', In d' (snapshot found st)
                   /\ m = mkMatch labels d'
                   /\ Num.gt (similarity labels (doc_data d')) (Num.of_Z 60) = true)
  /\ ~ In (mkMatch labels d) (findMatches_run labels (snapshot found st)).
Proof.
  intros Hin Hl. split; [|split].
  - unfold findPotentialMatches. now rewrite (filterFound_unlabelled labels _ d Hin Hl).
  - intros m. rewrite in_run_collect, findMatches_collect_eq, in_map_iff. split.
    + intros [d' [<- Hd']]. apply filter_In in Hd' as [Hd' Hgt]. now exists d'.
    + intros [d' [Hd' [-> Hgt]]]. exists d'. split; [reflexivity|]. now apply filter_In.
  - rewrite in_run_collect, findMatches_collect_eq, in_map_iff.
    intros [d' [Heq Hd']]. apply mkMatch_inj in Heq as ->.
    apply filter_In in Hd' as [_ Hgt].
    apply (gt_threshold_common (Some labels) (doc_data d) 60) in Hgt; [|lia].
    rewrite commonLabels_opt_Some in Hgt. unfold commonLabels in Hgt.
    rewrite Hl in Hgt. discriminate.
Qed.

(** The phone without labels, as the only found item. *)
Lemma unlabelled_item_hides_matches_witness :
  findPotentialMatches ["phone"] (fun _ => 1 # 2)
    {| potentialMatches := []; showMatches := false |}
    (Examples.storeOf (Relabel.withLabels None Examples.phone) ∅)
  = ({| potentialMatches := []; showMatches := false |}, [ConsoleErrorFinding]).
Proof.
  refine (proj1 (unlabelled_item_hides_matches ["phone"] (fun _ => 1 # 2)
            {| potentialMatches := []; showMatches := false |}
            (Examples.storeOf (Relabel.withLabels None Examples.phone) ∅)
            {| doc_id := "item1"; doc_data := Relabel.withLabels None Examples.phone |}
            _ eq_refl)).
  apply (proj2 (MatcherExtras.in_snapshot _ _ _)). repeat split.
Defined.

End LostItemPageExtras.

(* ===================================================================== *)
(** * Properties of the lists of the client pages *)
(* ===================================================================== *)

Module ClientExtras.

Import Str StrFacts Client ItemCard.

Lemma filter_filter {A} (p q : A -> bool) (l : list A) :
  List.filter p (List.filter q l) = List.filter (fun x => q x && p x) l.
Proof.
  induction l as [|x l IH]; simpl; [reflexivity|].
  destruct (q x); simpl; [|exact IH]. destruct (p x); now rewrite IH.
Qed.

Lemma filter_true {A} (l : list A) : List.filter (fun _ => true) l = l.
Proof. induction l as [|x l IH]; simpl; [reflexivity|]. now rewrite IH. Qed.

Lemma filter_sublist {A} (p : A -> bool) (l : list A) : sublist (List.filter p l) l.
Proof.
  induction l as [|x l IH]; simpl; [constructor|].
  destruct (p x); now constructor.
Qed.

Lemma filter_idem {A} (p : A -> bool) (l : list A) :
  List.filter p (List.filter p l) = List.filter p l.
Proof.
  rewrite filter_filter. apply filter_ext. intros x. now destruct (p x).
Qed.

Lemma searchFilterItems_filter (f : SearchFilters) (items : list ClientItem) :
  searchFilterItems f items = List.filter (passes f) items.
Proof.
  unfold searchFilterItems, passes.
  assert (H1 : match searchTerm f with
               | EmptyString => items
               | term => List.filter (matchesTerm term) items
               end
               = List.filter (fun it => match searchTerm f with
                                        | EmptyString => true
                                        | term => matchesTerm term it
                                        end) items).
  { destruct (searchTerm f); [now rewrite filter_true | reflexivity]. }
  rewrite H1. clear H1.
  set (l1 := List.filter _ items).
  assert (H2 : match selectedType f with
               | AllTypes => l1
               | OnlyType t => List.filter (fun it => bool_decide (c_type it = t)) l1
               end = List.filter (hasType (selectedType f)) l1).
  { unfold hasType. destruct (selectedType f); [now rewrite filter_true | reflexivity]. }
  rewrite H2. clear H2. unfold l1. rewrite filter_filter.
  set (l2 := List.filter _ items).
  assert (H3 : match statusOf (selectedStatus f) with
               | None => l2
               | Some s => List.filter (fun it => bool_decide (c_status it = s)) l2
               end
               = List.filter (fun it => match statusOf (selectedStatus f) with
                                        | None => true
                                        | Some s => bool_decide (c_status it = s)
                                        end) l2).
  { destruct (statusOf (selectedStatus f)); [reflexivity | now rewrite filter_true]. }
  rewrite H3. clear H3. unfold l2. rewrite filter_filter.
  destruct (String.eqb (selectedLocation f) "all").
  - apply filter_ext. intros it. now rewrite andb_true_r.
  - now rewrite filter_filter.
Qed.

(** What it is for an item to pass the selected tests. *)
Lemma passes_spec (f : SearchFilters) (it : ClientItem) :
  passes f it = true <->
  (searchTerm f <> EmptyString -> matchesTerm (searchTerm f) it = true)
  /\ (forall t, selectedType f = OnlyType t -> c_type it = t)
  /\ (forall s, statusOf (selectedStatus f) = Some s -> c_status it = s)
  /\ (selectedLocation f <> "all" ->
      containsNoCase (c_location it) (selectedLocation f) = true).
Proof.
  unfold passes. rewrite !andb_true_iff.
  assert (H1 : match searchTerm f with
               | EmptyString => true
               | term => matchesTerm term it
               end = true
               <-> (searchTerm f <> EmptyString -> matchesTerm (searchTerm f) it = true)).
  { destruct (searchTerm f) as [|c t]; split; intros H; try reflexivity.
    - intros Hne. now contradiction Hne.
    - intros _. exact H.
    - apply H. discriminate. }
  assert (H2 : hasType (selectedType f) it = true
               <-> (forall t, selectedType f = OnlyType t -> c_type it = t)).
  { unfold hasType. destruct (selectedType f) as [|t0]; split; intros H;
      try reflexivity.
    - intros t Ht. discriminate.
    - intros t [= <-]. now apply bool_decide_eq_true in H.
    - apply bool_decide_eq_true. now apply H. }
  assert (H3 : match statusOf (selectedStatus f) with
               | None => true
               | Some s => bool_decide (c_status it = s)
               end = true
               <-> (forall s, statusOf (selectedStatus f) = Some s -> c_status it = s)).
  { destruct (statusOf (selectedStatus f)) as [s0|]; split; intros H;
      try reflexivity.
    - intros s [= <-]. now apply bool_decide_eq_true in H.
    - apply bool_decide_eq_true. now apply H.
    - intros s Hs. discriminate. }
  assert (H4 : (if String.eqb (selectedLocation f) "all" then true
                else containsNoCase (c_location it) (selectedLocation f)) = true
               <-> (selectedLocation f <> "all" ->
                    containsNoCase (c_location it) (selectedLocation f) = true)).
  { destruct (String.eqb_spec (selectedLocation f) "all") as [He|Hne]; split;
      intros H; try reflexivity.
    - intros Hne. contradiction.
    - intros _. exact H.
    - now apply H. }
  rewrite H1, H2, H3, H4. tauto.
Qed.

(** X22. The filter of the search page returns exactly the items that
    pass all the selected tests, each as often as it occurs in the list
    and in the order of the list: an item is listed if and only if it is
    in the list, matches the search term when there is one (in its title,
    description, location or one of its labels), has the selected type
    when one is selected, has the selected status when one is selected,
    and has a location containing the selected one when one is selected.
    With nothing selected the whole list is returned; filtering a
    filtered list again changes nothing; a list in two parts is filtered
    part by part; and an item with status [pending] is only ever listed
    when no status is selected. *)
Theorem search_filter_properties (f : SearchFilters) (items : list ClientItem) :
  searchFilterItems f items = List.filter (passes f) items
  /\ (forall it, In it (searchFilterItems f items) <->
        In it items
        /\ (searchTerm f <> EmptyString -> matchesTerm (searchTerm f) it = true)
        /\ (forall t, selectedType f = OnlyType t -> c_type it = t)
        /\ (forall s, statusOf (selectedStatus f) = Some s -> c_status it = s)
        /\ (selectedLocation f <> "all" ->
            containsNoCase (c_location it) (selectedLocation f) = true))
  /\ searchFilterItems noFilters items = items
  /\ sublist (searchFilterItems f items) items
  /\ searchFilterItems f (searchFilterItems f items) = searchFilterItems f items
  /\ (forall l1 l2,
        searchFilterItems f (l1 ++ l2) = searchFilterItems f l1 ++ searchFilterItems f l2)
  /\ (forall it, In it (searchFilterItems f items) ->
        c_status it = pending -> selectedStatus f = AllStatuses).
Proof.
  split; [apply searchFilterItems_filter|].
  assert (Hin : forall it, In it (searchFilterItems f items) <->
            In it items
            /\ (searchTerm f <> EmptyString -> matchesTerm (searchTerm f) it = true)
            /\ (forall t, selectedType f = OnlyType t -> c_type it = t)
            /\ (forall s, statusOf (selectedStatus f) = Some s -> c_status it = s)
            /\ (selectedLocation f <> "all" ->
                containsNoCase (c_location it) (selectedLocation f) = true)).
  { intros it. now rewrite searchFilterItems_filter, filter_In, passes_spec. }
  split; [exact Hin|].
  split; [reflexivity|]. rewrite !searchFilterItems_filter.
  split; [apply filter_sublist|]. split; [apply filter_idem|]. split.
  - intros l1 l2. rewrite !searchFilterItems_filter. apply List.filter_app.
  - intros it Hit Hpend. rewrite <- searchFilterItems_filter in Hit.
    apply Hin in Hit as [_ [_ [_ [Hs _]]]].
    destruct (selectedStatus f); [reflexivity| |];
      specialize (Hs _ eq_refl); congruence.
Qed.

(** Searching two postings for unclaimed phones. *)
Lemma search_filter_properties_example :
  searchFilterItems
    {| searchTerm := "PHONE"; selectedType := OnlyType found;
       selectedStatus := OnlyUnclaimed; selectedLocation := "all" |}
    [posting "1" "Black iPhone" found unclaimed;
     posting "2" "Blue umbrella" found unclaimed;
     posting "3" "Phone case" found claimed]
  = [posting "1" "Black iPhone" found unclaimed].
Proof. vm_compute. reflexivity. Qed.

Lemma filter_length_le {A} (p : A -> bool) (l : list A) :
  (length (List.filter p l) <= length l)%nat.
Proof.
  induction l as [|x l IH]; simpl; [lia|]. destruct (p x); simpl; lia.
Qed.

Lemma filter_disjoint_length {A} (p q : A -> bool) (l : list A) :
  (forall x, p x = true -> q x = false) ->
  (length (List.filter p l) + length (List.filter q l) <= length l)%nat.
Proof.
  intros H. induction l as [|x l IH]; simpl; [lia|].
  destruct (p x) eqn:Hp; [rewrite (H x Hp)|destruct (q x)]; simpl; lia.
Qed.

Lemma filter_three_way {A} (p q r : A -> bool) (l : list A) :
  (forall x, (p x = true /\ q x = false /\ r x = false)
             \/ (p x = false /\ q x = true /\ r x = false)
             \/ (p x = false /\ q x = false /\ r x = true)) ->
  (length (List.filter p l) + length (List.filter q l) + length (List.filter r l)
   = length l)%nat.
Proof.
  intros H. induction l as [|x l IH]; simpl; [reflexivity|].
  destruct (H x) as [[-> [-> ->]]|[[-> [-> ->]]|[-> [-> ->]]]]; simpl; lia.
Qed.

(** X23. The numbers on the admin page agree with its lists: the count
    of pending approvals and of claimed items are the lengths of the
    lists under these filters; pending, approved and the items whose
    [isApproved] is not set add up to the total, so an item without
    [isApproved] is counted in the total and listed under neither; and
    claimed and flagged items together never exceed the total. *)
Theorem admin_stats_consistent (items : list ClientItem) :
  let s := calculateStats items in
  pendingApproval s = length (adminFilterItems PendingApproval items)
  /\ claimedItems s = length (adminFilterItems Claimed items)
  /\ totalItems s = length (adminFilterItems AllItems items)
  /\ (pendingApproval s + length (adminFilterItems Approved items)
      + length (List.filter (fun it => bool_decide (c_isApproved it = None)) items)
      = totalItems s)%nat
  /\ (claimedItems s + flaggedItems s <= totalItems s)%nat
  /\ (forall it, c_isApproved it = None ->
        ~ In it (adminFilterItems PendingApproval items)
        /\ ~ In it (adminFilterItems Approved items)).
Proof.
  intros s. split; [reflexivity|]. split; [reflexivity|]. split; [reflexivity|].
  split; [|split].
  - unfold s. simpl. apply filter_three_way. intros it.
    destruct (c_isApproved it) as [[]|]; simpl; auto.
  - unfold s. simpl. apply filter_disjoint_length. intros it Hc.
    apply bool_decide_eq_true in Hc. apply bool_decide_eq_false. congruence.
  - intros it Hn. simpl. split; intros Hin; apply filter_In in Hin as [_ Hin];
      apply bool_decide_eq_true in Hin; congruence.
Qed.

(** X24. Approving an item on the admin page keeps the list as long as
    it was and marks every entry with that id approved, so it leaves the
    list of pending approvals and the count of them does not grow;
    rejecting removes exactly the entries with that id from every list.
    When the write to the store fails, the list stays as it was. *)
Theorem approve_and_reject (itemId : string) (items : list ClientItem) :
  let a := handleApprove true itemId items in
  let r := handleReject true itemId items in
  List.map c_id a = List.map c_id items
  /\ (forall it, In it a -> c_id it = itemId -> c_isApproved it = Some true)
  /\ (forall it, In it (adminFilterItems PendingApproval a) -> c_id it <> itemId)
  /\ (pendingApproval (calculateStats a) <= pendingApproval (calculateStats items))%nat
  /\ claimedItems (calculateStats a) = claimedItems (calculateStats items)
  /\ (forall it, In it r <-> In it items /\ c_id it <> itemId)
  /\ (forall sel it, In it (adminFilterItems sel r) -> c_id it <> itemId)
  /\ handleApprove false itemId items = items
  /\ handleReject false itemId items = items.
Proof.
  intros a r.
  assert (Ha : forall it, In it a -> c_id it = itemId -> c_isApproved it = Some true).
  { intros it Hin Hid. unfold a, handleApprove in Hin.
    apply in_map_iff in Hin as [x [Hx _]].
    destruct (String.eqb_spec (c_id x) itemId) as [He|Hne].
    - now subst it.
    - subst it. contradiction. }
  assert (Hr : forall it, In it r <-> In it items /\ c_id it <> itemId).
  { intros it. unfold r, handleReject. rewrite filter_In, negb_true_iff.
    now rewrite String.eqb_neq. }
  split; [|split; [exact Ha|split; [|split; [|split; [|split; [exact Hr|split]]]]]].
  - unfold a, handleApprove. rewrite List.map_map. apply map_ext.
    intros it. now destruct (String.eqb (c_id it) itemId).
  - intros it Hin Hid. simpl in Hin. apply filter_In in Hin as [Hin Hp].
    apply bool_decide_eq_true in Hp. rewrite (Ha it Hin Hid) in Hp. discriminate.
  - unfold a, handleApprove. simpl. clear. induction items as [|x l IH]; simpl; [lia|].
    destruct (String.eqb (c_id x) itemId); simpl.
    + destruct (bool_decide (c_isApproved x = Some false)); simpl; lia.
    + destruct (bool_decide (c_isApproved x = Some false)); simpl; lia.
  - unfold a, handleApprove. simpl. clear. induction items as [|x l IH]; simpl;
      [reflexivity|].
    destruct (String.eqb (c_id x) itemId); simpl;
      destruct (bool_decide (c_status x = claimed)); simpl; now rewrite IH.
  - intros sel it Hin.
    assert (Hin' : In it r).
    { destruct sel; simpl in Hin; [exact Hin| | |]; now apply filter_In in Hin. }
    now apply Hr in Hin'.
  - split; reflexivity.
Qed.

(** X25. On the profile page the found and the lost items add up to the
    total of the submissions, and the unclaimed and the claimed ones
    together never exceed it. *)
Theorem profile_stats_add_up (userItems claimed_ : list ClientItem) :
  let s := profileStats userItems claimed_ in
  (foundItems s + lostItems s = totalSubmitted s)%nat
  /\ (unclaimedItems s + successfulReturns s <= totalSubmitted s)%nat
  /\ claimedCount s = length claimed_.
Proof.
  intros s. unfold s. simpl. split; [|split; [|reflexivity]].
  - clear. induction userItems as [|x l IH]; simpl; [reflexivity|].
    destruct (c_type x); simpl; lia.
  - apply filter_disjoint_length. intros it Hc.
    apply bool_decide_eq_true in Hc. apply bool_decide_eq_false. congruence.
Qed.

(** X26. A card shows the first labels of the item, three at most, and
    announces the rest: the labels shown and the number announced add up
    to the number of labels, and nothing is announced for three labels
    or fewer. *)
Theorem card_labels (labels : list string) :
  (length (shownLabels labels) <= 3)%nat
  /\ (exists rest, labels = shownLabels labels ++ rest
                   /\ length rest = default 0%nat (moreLabels labels))
  /\ (moreLabels labels = None <-> (length labels <= 3)%nat).
Proof.
  unfold shownLabels, moreLabels. split; [|split].
  - rewrite length_take. lia.
  - exists (drop 3 labels). split; [now rewrite take_drop|].
    rewrite length_drop. destruct (Nat.ltb_spec 3 (length labels)); simpl; lia.
  - destruct (Nat.ltb_spec 3 (length labels)); split; intros H'; try lia;
      try discriminate; reflexivity.
Qed.

End ClientExtras.
